(** * Vinyl-RN: the collection store, the Discogs client and the glue between them

    A shallow embedding of [src/utils/api.ts], [src/utils/discogs.ts],
    [src/types/index.ts], of the handlers of the [App] component, of
    [AlbumCover] and of the handlers of [DiscogsSearchScreen].

    Conventions of the embedding.
    - An optional property ([year?: number]) is an [option]; [None] stands for
      both "property absent" and "property holds undefined", which no code
      of the store can tell apart (it only reads properties) and which
      [JSON.stringify] identifies.  [imageUrl : string | null] is an
      [option] whose [None] is [null].
    - The four text properties of a record are declared [string], yet
      [updateRecord] writes [undefined] there when its argument names one
      with that value, as [Partial<VinylData>] allows; they are options
      too, and [None] is that state.
    - Numbers are integers ([Z]): timestamps, years, identifiers, HTTP
      status codes.  [pretty] is their decimal rendering, which is what
      [toString] and template literals produce for the integers that occur
      (below 10^21 in magnitude).
    - An [async] function is a state transformer that settles either with a
      value or with a thrown value; [await] sequences them.
    - [Date.now()] and [Math.random().toString(36).substr(2, 9)] are inputs
      of the function that evaluates them.
    - [console.error] output is not part of the state. *)

From Stdlib Require Import ZArith Ascii String.
From stdpp Require Import base list strings pretty.

Set Warnings "-register-all".

Local Open Scope string_scope.
Local Open Scope list_scope.
Local Open Scope Z_scope.

(** ** Thrown values and promises *)

(** The classes of the [Error] objects that occur. *)
Inductive ErrorClass := Error | TypeError | SyntaxError.

(** What a [throw] or a rejected promise carries: an instance of [Error] or
    of one of its subclasses, with its message, or some other value. *)
Inductive Thrown :=
| ErrorInstance (cls : ErrorClass) (message : string)
| NonError (description : string).

(** [error instanceof Error] *)
Definition instanceof_Error (t : Thrown) : bool :=
  match t with ErrorInstance _ _ => true | NonError _ => false end.

Global Instance ErrorClass_eq_dec : EqDecision ErrorClass.
Proof. solve_decision. Defined.
Global Instance Thrown_eq_dec : EqDecision Thrown.
Proof. solve_decision. Defined.

Inductive Outcome (A : Type) :=
| Returns (a : A)
| Throws (t : Thrown).
Arguments Returns {A} a.
Arguments Throws {A} t.

Definition raises {A} (o : Outcome A) : bool :=
  match o with Returns _ => false | Throws _ => true end.

(** An asynchronous computation over a state [S]. *)
Definition Promise (S A : Type) : Type := S → Outcome A * S.

Section Promise.
Context {S : Type}.

Definition resolve {A} (a : A) : Promise S A := λ s, (Returns a, s).
Definition throw {A} (t : Thrown) : Promise S A := λ s, (Throws t, s).

(** [const x = await p; k x] *)
Definition await {A B} (p : Promise S A) (k : A → Promise S B) : Promise S B :=
  λ s, match p s with
       | (Returns a, s') => k a s'
       | (Throws t, s') => (Throws t, s')
       end.

(** [try { body } catch (error) { handler error }] *)
Definition try_catch {A} (body : Promise S A) (handler : Thrown → Promise S A)
  : Promise S A :=
  λ s, match body s with
       | (Returns a, s') => (Returns a, s')
       | (Throws t, s') => handler t s'
       end.

(** [p.catch(handler)] with a handler that returns a value. *)
Definition catch {A} (p : Promise S A) (handler : Thrown → A) : Promise S A :=
  try_catch p (λ t, resolve (handler t)).

(** A synchronous completion used inside an [async] body. *)
Definition complete {A} (o : Outcome A) : Promise S A := λ s, (o, s).
End Promise.

Notation "'let*' x ':=' p 'in' k" := (await p (λ x, k))
  (at level 10, x binder, p at level 100, k at level 200,
   format "'[v' 'let*'  x  ':='  p  'in' '/' k ']'").
Notation "p ';;;' k" := (await p (λ _, k))
  (at level 100, k at level 200, right associativity).

(** ** src/types/index.ts *)

Record VinylData := {
  artistName : option string;
  albumName : option string;
  serialNumber : option string;
  matrixRunout : option string;
  year : option Z;
  country : option string;
  genre : option (list string);
  style : option (list string);
  label : option string;
  format : option string;
  discogsId : option Z;
  discogsUrl : option string;
}.

(** [interface VinylRecord extends VinylData] *)
Record VinylRecord := {
  data :> VinylData;
  id : string;
  imageUrl : option string;
  createdAt : Z;
  updatedAt : Z;
}.

Global Instance VinylData_eq_dec : EqDecision VinylData.
Proof. solve_decision. Defined.
Global Instance VinylRecord_eq_dec : EqDecision VinylRecord.
Proof. solve_decision. Defined.

(** [Partial<VinylData>]: every property may be left out.  The outer
    [option] says whether the property is named; a named property may hold
    [undefined] (inner [None]), the text properties included. *)
Module Partial.
Record VinylData := {
  artistName : option (option string);
  albumName : option (option string);
  serialNumber : option (option string);
  matrixRunout : option (option string);
  year : option (option Z);
  country : option (option string);
  genre : option (option (list string));
  style : option (option (list string));
  label : option (option string);
  format : option (option string);
  discogsId : option (option Z);
  discogsUrl : option (option string);
}.

(** [{}] *)
Definition empty : VinylData :=
  {| artistName := None; albumName := None; serialNumber := None;
     matrixRunout := None; year := None; country := None; genre := None;
     style := None; label := None; format := None; discogsId := None;
     discogsUrl := None |}.

(** [record.p]: [undefined] when the property is not named. *)
Definition get {A} (p : option (option A)) : option A :=
  match p with Some v => v | None => None end.
End Partial.

(** The parameter of [createRecord]:
    [Partial<VinylData> & { imageUrl?: string }]. *)
Module Input.
Record t := {
  fields : Partial.VinylData;
  imageUrl : option string;
}.
End Input.
Coercion Input.fields : Input.t >-> Partial.VinylData.

(** What [updateRecord] is handed.  Its parameter is declared
    [Partial<VinylData>], and an object that carries further properties is
    assignable to that: a [VinylRecord], or a part of one, is.  The spread
    copies those properties as well, so the argument is the partial data
    and, each carried or not, the four properties that a record has beside
    its data.  Properties of other names, which no code reads, and
    properties carried with a value that [VinylRecord] does not declare for
    them are left out. *)
Module Updates.
Record t := {
  fields : Partial.VinylData;
  id : option string;
  imageUrl : option (option string);
  createdAt : option Z;
  updatedAt : option Z;
}.

(** An object with the properties of [p] and no other. *)
Definition of_partial (p : Partial.VinylData) : t :=
  {| fields := p; id := None; imageUrl := None; createdAt := None;
     updatedAt := None |}.

(** A record passed as the updates: every property it has, named. *)
Definition of_record (r : VinylRecord) : t :=
  let 'Build_VinylRecord _ id0 imageUrl0 createdAt0 updatedAt0 := r in
  {| fields :=
       {| Partial.artistName := Some (artistName r);
          Partial.albumName := Some (albumName r);
          Partial.serialNumber := Some (serialNumber r);
          Partial.matrixRunout := Some (matrixRunout r);
          Partial.year := Some (year r);
          Partial.country := Some (country r);
          Partial.genre := Some (genre r);
          Partial.style := Some (style r);
          Partial.label := Some (label r);
          Partial.format := Some (format r);
          Partial.discogsId := Some (discogsId r);
          Partial.discogsUrl := Some (discogsUrl r) |};
     id := Some id0;
     imageUrl := Some imageUrl0;
     createdAt := Some createdAt0;
     updatedAt := Some updatedAt0 |}.
End Updates.
Coercion Updates.of_partial : Partial.VinylData >-> Updates.t.

(** ** JavaScript's [||] on strings *)

(** A string is falsy exactly when it is empty. *)
Definition truthy (s : string) : bool := negb (bool_decide (s = "")).

(** [x || ''] for [x : string | undefined] *)
Definition or_empty (x : option string) : string :=
  match x with
  | Some s => if truthy s then s else ""
  | None => ""
  end.

(** [x || y] for [x : string | undefined] and a [y] that is [null],
    [undefined] or another string. *)
Definition or_else (x y : option string) : option string :=
  match x with
  | Some s => if truthy s then Some s else y
  | None => y
  end.

(** ** The backing store: AsyncStorage under the key ['vinyl_records'] *)

(** The text held under the key, up to what [JSON.parse] makes of it: the
    empty string, a text on which [JSON.parse] throws, or the text that
    [JSON.stringify] writes for a sequence of records, which [JSON.parse]
    reads back as that sequence.  [getStoredRecords] casts whatever
    [JSON.parse] returns to [VinylRecord[]] without a check; this is the
    slot as the declared type has it, which is what the functions that
    go on to use the records as records are stated over.  The read path
    over a slot that holds any text at all is [Raw], below. *)
Inductive StoredText :=
| EmptyText
| Garbled (text : string)
| Json (records : list VinylRecord).

(** [JSON.stringify(records)] *)
Definition JSON_stringify (records : list VinylRecord) : StoredText :=
  Json records.

(** [JSON.parse(stored)] *)
Definition JSON_parse (stored : StoredText) : Outcome (list VinylRecord) :=
  match stored with
  | EmptyText => Throws (ErrorInstance SyntaxError "JSON Parse error: Unexpected end of input")
  | Garbled _ => Throws (ErrorInstance SyntaxError "JSON Parse error: Unexpected token")
  | Json records => Returns records
  end.

(** The device: the value under the key ([None] when the key was never
    written: [getItem] resolves to [null]) and whether reads and writes
    are rejected. *)
Record AsyncStorage := {
  item : option StoredText;
  getItem_rejects : bool;
  setItem_rejects : bool;
}.

Definition getItem : Promise AsyncStorage (option StoredText) :=
  λ st, if getItem_rejects st
        then (Throws (NonError "AsyncStorage.getItem rejected"), st)
        else (Returns (item st), st).

Definition setItem (value : StoredText) : Promise AsyncStorage unit :=
  λ st, if setItem_rejects st
        then (Throws (NonError "AsyncStorage.setItem rejected"), st)
        else (Returns tt, {| item := Some value;
                             getItem_rejects := getItem_rejects st;
                             setItem_rejects := setItem_rejects st |}).

(** The condition of [stored ? ... : ...] for [stored : string | null]. *)
Definition truthy_stored (stored : option StoredText) : bool :=
  match stored with
  | None | Some EmptyText => false
  | Some (Garbled _) | Some (Json _) => true
  end.

(** ** src/utils/api.ts *)

Definition getStoredRecords : Promise AsyncStorage (list VinylRecord) :=
  try_catch
    (let* stored := getItem in
     match stored with
     | Some text => if truthy_stored stored then complete (JSON_parse text) else resolve []
     | None => resolve []
     end)
    (λ error, resolve []).

Definition saveRecords (records : list VinylRecord) : Promise AsyncStorage unit :=
  try_catch
    (setItem (JSON_stringify records))
    (λ error, throw (ErrorInstance Error "Failed to save data")).

(** The error of [getRecord] and [updateRecord] for an unknown id. *)
Definition NotFoundError : Thrown := ErrorInstance Error "Record not found".

Module api.

Definition getRecords : Promise AsyncStorage (list VinylRecord) :=
  getStoredRecords.

(** [records.find(r => r.id === id)], then [if (!record) throw]. *)
Definition getRecord (id0 : string) : Promise AsyncStorage VinylRecord :=
  let* records := getStoredRecords in
  match list_find (λ r, id r = id0) records with
  | Some (_, record) => resolve record
  | None => throw NotFoundError
  end.

(** The object literal of [createRecord]; [now] is [Date.now()] and
    [rnd] is [Math.random().toString(36).substr(2, 9)]. *)
Definition newRecord (record : Input.t) (now : Z) (rnd : string) : VinylRecord :=
  {| id := "record_" +:+ pretty now +:+ "_" +:+ rnd;
     data := {|
       artistName := Some (or_empty (Partial.get (Partial.artistName record)));
       albumName := Some (or_empty (Partial.get (Partial.albumName record)));
       serialNumber := Some (or_empty (Partial.get (Partial.serialNumber record)));
       matrixRunout := Some (or_empty (Partial.get (Partial.matrixRunout record)));
       year := Partial.get (Partial.year record);
       country := Partial.get (Partial.country record);
       genre := Partial.get (Partial.genre record);
       style := Partial.get (Partial.style record);
       label := Partial.get (Partial.label record);
       format := Partial.get (Partial.format record);
       discogsId := Partial.get (Partial.discogsId record);
       discogsUrl := Partial.get (Partial.discogsUrl record) |};
     imageUrl := or_else (Input.imageUrl record) None;
     createdAt := now;
     updatedAt := now |}.

Definition createRecord (record : Input.t) (now : Z) (rnd : string)
  : Promise AsyncStorage VinylRecord :=
  let* records := getStoredRecords in
  let newRecord := newRecord record now rnd in
  saveRecords (records ++ [newRecord]) ;;;
  resolve newRecord.

(** [{ ...existing, ...updates }] on the properties of [VinylData]: a
    property named by [updates] takes its value, the others stay. *)
Definition spread (existing : VinylData) (updates : Partial.VinylData) : VinylData :=
  {| artistName := default (artistName existing) (Partial.artistName updates);
     albumName := default (albumName existing) (Partial.albumName updates);
     serialNumber := default (serialNumber existing) (Partial.serialNumber updates);
     matrixRunout := default (matrixRunout existing) (Partial.matrixRunout updates);
     year := default (year existing) (Partial.year updates);
     country := default (country existing) (Partial.country updates);
     genre := default (genre existing) (Partial.genre updates);
     style := default (style existing) (Partial.style updates);
     label := default (label existing) (Partial.label updates);
     format := default (format existing) (Partial.format updates);
     discogsId := default (discogsId existing) (Partial.discogsId updates);
     discogsUrl := default (discogsUrl existing) (Partial.discogsUrl updates) |}.

(** [{ ...records[index], ...updates, updatedAt: Date.now() }]: every
    property that [updates] carries takes its value, [id], [imageUrl] and
    [createdAt] included; [updatedAt], written last, is the time of the
    call whether [updates] carries one or not. *)
Definition merged (existing : VinylRecord) (updates : Updates.t) (now : Z)
  : VinylRecord :=
  {| data := spread existing (Updates.fields updates);
     id := default (id existing) (Updates.id updates);
     imageUrl := default (imageUrl existing) (Updates.imageUrl updates);
     createdAt := default (createdAt existing) (Updates.createdAt updates);
     updatedAt := now |}.

(** [findIndex] gives the first position whose record has the id, and
    [-1], here [None], when there is none.  The [records[index]] that is
    returned is the object assigned to that position just before. *)
Definition updateRecord (id0 : string) (updates : Updates.t) (now : Z)
  : Promise AsyncStorage VinylRecord :=
  let* records := getStoredRecords in
  match list_find (λ r, id r = id0) records with
  | None => throw NotFoundError
  | Some (index, existing) =>
      let updated := merged existing updates now in
      saveRecords (<[index := updated]> records) ;;;
      resolve updated
  end.

Definition deleteRecord (id0 : string) : Promise AsyncStorage unit :=
  let* records := getStoredRecords in
  let filtered := filter (λ r, id r ≠ id0) records in
  saveRecords filtered.

Definition uploadImage (image : string) (recordId : option string)
  : Promise AsyncStorage string :=
  resolve image.

End api.

(** ** The read path over whatever the slot holds *)

(** [getStoredRecords] does nothing with what [JSON.parse] returns but
    return it, so it is defined here over any type of values: those of
    JavaScript, of which it needs the arrays of records, the empty one in
    the first place.  The slot holds the empty string, a text on which
    [JSON.parse] throws, or a text that it parses to some value, an array
    of records or not: [null], a number, an object, an array of anything. *)
Module Raw.
Section values.
Context {Value : Type}.
Variable array : list VinylRecord → Value.

Inductive StoredText :=
| EmptyText
| Garbled (text : string)
| Parses (value : Value).

(** [JSON.parse(stored)] *)
Definition JSON_parse (stored : StoredText) : Outcome Value :=
  match stored with
  | EmptyText => Throws (ErrorInstance SyntaxError "JSON Parse error: Unexpected end of input")
  | Garbled _ => Throws (ErrorInstance SyntaxError "JSON Parse error: Unexpected token")
  | Parses value => Returns value
  end.

Record AsyncStorage := {
  item : option StoredText;
  getItem_rejects : bool;
  setItem_rejects : bool;
}.

Definition getItem : Promise AsyncStorage (option StoredText) :=
  λ st, if getItem_rejects st
        then (Throws (NonError "AsyncStorage.getItem rejected"), st)
        else (Returns (item st), st).

(** The condition of [stored ? ... : ...] for [stored : string | null]. *)
Definition truthy_stored (stored : option StoredText) : bool :=
  match stored with
  | None | Some EmptyText => false
  | Some (Garbled _) | Some (Parses _) => true
  end.

Definition getStoredRecords : Promise AsyncStorage Value :=
  try_catch
    (let* stored := getItem in
     match stored with
     | Some text => if truthy_stored stored then complete (JSON_parse text) else resolve (array [])
     | None => resolve (array [])
     end)
    (λ error, resolve (array [])).

Definition getRecords : Promise AsyncStorage Value :=
  getStoredRecords.

End values.
Arguments StoredText : clear implicits.
Arguments AsyncStorage : clear implicits.
End Raw.



(** ** JSON values, as far as the Discogs client looks at them *)

Inductive json :=
| JNull
| JBool (b : bool)
| JNumber (n : Z)
| JString (s : string)
| JArray (items : list json)
| JObject (members : list (string * json)).

(** The value of a member of a parsed object. *)
Fixpoint member (key : string) (members : list (string * json)) : option json :=
  match members with
  | [] => None
  | (k, v) :: rest => if bool_decide (k = key) then Some v else member key rest
  end.

(** [value.message]: a [TypeError] on [null], the member of an object,
    [undefined] on every other JSON value. *)
Definition get_message (value : json) : Outcome (option json) :=
  match value with
  | JNull => Throws (ErrorInstance TypeError "Cannot read property 'message' of null")
  | JObject members => Returns (member "message" members)
  | _ => Returns None
  end.

(** Truthiness of a property value ([None] is [undefined]). *)
Definition truthy_value (v : option json) : bool :=
  match v with
  | None | Some JNull => false
  | Some (JBool b) => b
  | Some (JNumber n) => negb (bool_decide (n = 0))
  | Some (JString s) => truthy s
  | Some (JArray _) | Some (JObject _) => true
  end.

(** The text a template literal gives a JSON value. *)
Fixpoint to_text (v : json) : string :=
  match v with
  | JNull => "null"
  | JBool true => "true"
  | JBool false => "false"
  | JNumber n => pretty n
  | JString s => s
  | JArray items =>
      (fix join (l : list json) : string :=
         match l with
         | [] => ""
         | [x] => match x with JNull => "" | _ => to_text x end
         | x :: rest =>
             (match x with JNull => "" | _ => to_text x end) +:+ "," +:+ join rest
         end) items
  | JObject _ => "[object Object]"
  end.

(** The text of [errorData.message || ''] inside a template literal. *)
Definition message_or_empty (message : option json) : string :=
  match message with
  | Some v => if truthy_value message then to_text v else ""
  | None => ""
  end.

(** ** The network *)

(** [new URL(...)] with the parameters appended to [searchParams]. *)
Record URL := {
  location : string;
  searchParams : list (string * string);
}.

Record HttpRequest := {
  url : URL;
  method : string;
  headers : list (string * string);
}.

(** What the client reads of a [Response]; [body_json] is how
    [response.json()] settles. *)
Record Response := {
  ok : bool;
  status : Z;
  statusText : string;
  body_json : Outcome json;
}.

(** The network answers each request with a response or rejects the
    [fetch]; [issued] records the requests made so far. *)
Record Network := {
  answer : HttpRequest → Outcome Response;
  issued : list HttpRequest;
}.

Definition fetch (request : HttpRequest) : Promise Network Response :=
  λ net, (answer net request,
          {| answer := answer net; issued := (issued net ++ [request])%list |}).

(** [response.json()] *)
Definition response_json (response : Response) : Promise Network json :=
  complete (body_json response).

(** ** src/utils/discogs.ts *)

Module SearchType.
Inductive t := release | master | artist | label.
Definition to_string (type : t) : string :=
  match type with
  | release => "release" | master => "master"
  | artist => "artist" | label => "label"
  end.
End SearchType.

(** The error of a call made without credentials. *)
Definition ConfigurationError : Thrown :=
  ErrorInstance Error
    "Discogs API not configured. Please provide authentication credentials.".

(** The error of the last [throw] of [request]. *)
Definition FetchFailedError : Thrown :=
  ErrorInstance Error "Failed to fetch data from Discogs API".

Module DiscogsAPI.

Record t := {
  baseUrl : string;
  token : option string;
}.

(** The constructor; [env] is [process.env.EXPO_PUBLIC_DISCOGS_TOKEN]. *)
Definition new (env : option string) : t :=
  {| baseUrl := "https://api.discogs.com"; token := or_else env None |}.

Definition setToken (this : t) (token : string) : t :=
  {| baseUrl := baseUrl this; token := Some token |}.

(** [!!this.token] *)
Definition isConfigured (this : t) : bool :=
  match token this with
  | Some s => truthy s
  | None => false
  end.

Definition getAuthHeaders (this : t) : list (string * string) :=
  ([("Content-Type", "application/json"); ("User-Agent", "VinylCollectionApp/1.0")]
   ++ match token this with
      | Some s => if truthy s then [("Authorization", "Discogs token=" +:+ s)] else []
      | None => []
      end)%list.

(** The message of the error thrown for a response that is not [ok]. *)
Definition status_message (response : Response) (message : option json) : string :=
  "Discogs API error: " +:+ pretty (status response) +:+ " "
    +:+ statusText response +:+ ". " +:+ message_or_empty message.

(** The request that [request] hands to [fetch]: the URL with the
    parameters appended, the method and the headers. *)
Definition outgoing (this : t) (endpoint : string)
    (params : option (list (string * string))) : HttpRequest :=
  let url := {| location := baseUrl this +:+ endpoint;
                searchParams := default [] params |} in
  {| url := url; method := "GET"; headers := getAuthHeaders this |}.

Definition request (this : t) (endpoint : string)
    (params : option (list (string * string))) : Promise Network json :=
  if negb (isConfigured this) then throw ConfigurationError
  else
    try_catch
      (let* response := fetch (outgoing this endpoint params) in
       if negb (ok response) then
         let* errorData := catch (response_json response) (λ _, JObject []) in
         let* message := complete (get_message errorData) in
         throw (ErrorInstance Error (status_message response message))
       else response_json response)
      (λ error,
         if instanceof_Error error then throw error
         else throw FetchFailedError).

(** [page] and [perPage] default to 1 and 20. *)
Definition search (this : t) (query : string) (type : option SearchType.t)
    (page perPage : option Z) : Promise Network json :=
  let params :=
    ([("q", query);
      ("page", pretty (default 1 page));
      ("per_page", pretty (default 20 perPage))]
     ++ match type with
        | Some ty => [("type", SearchType.to_string ty)]
        | None => []
        end)%list in
  request this "/database/search" (Some params).

Definition searchRelease (this : t) (artist album : string) (page : option Z)
  : Promise Network json :=
  let query := artist +:+ " " +:+ album in
  search this query (Some SearchType.release) (Some (default 1 page)) None.

Definition getRelease (this : t) (releaseId : Z) : Promise Network json :=
  request this ("/releases/" +:+ pretty releaseId) None.

Definition getMasterRelease (this : t) (masterId : Z) : Promise Network json :=
  request this ("/masters/" +:+ pretty masterId) None.

Definition searchByBarcode (this : t) (barcode : string) : Promise Network json :=
  request this "/database/search"
    (Some [("barcode", barcode); ("type", "release")]).

Definition searchByCatalogNumber (this : t) (catno : string) (page : option Z)
  : Promise Network json :=
  request this "/database/search"
    (Some [("catno", catno); ("type", "release");
           ("page", pretty (default 1 page))]).

(** The public operations, as one type of calls. *)
Inductive Call :=
| Search (query : string) (type : option SearchType.t) (page perPage : option Z)
| SearchRelease (artist album : string) (page : option Z)
| GetRelease (releaseId : Z)
| GetMasterRelease (masterId : Z)
| SearchByBarcode (barcode : string)
| SearchByCatalogNumber (catno : string) (page : option Z).

(** The endpoint and the parameters of a call. *)
Definition target (call : Call) : string * option (list (string * string)) :=
  match call with
  | Search query type page perPage =>
      ("/database/search",
       Some ([("q", query);
              ("page", pretty (default 1 page));
              ("per_page", pretty (default 20 perPage))]
             ++ match type with
                | Some ty => [("type", SearchType.to_string ty)]
                | None => []
                end))
  | SearchRelease artist album page =>
      ("/database/search",
       Some [("q", artist +:+ " " +:+ album);
             ("page", pretty (default 1 page));
             ("per_page", "20");
             ("type", "release")])
  | GetRelease releaseId => ("/releases/" +:+ pretty releaseId, None)
  | GetMasterRelease masterId => ("/masters/" +:+ pretty masterId, None)
  | SearchByBarcode barcode =>
      ("/database/search", Some [("barcode", barcode); ("type", "release")])
  | SearchByCatalogNumber catno page =>
      ("/database/search",
       Some [("catno", catno); ("type", "release");
             ("page", pretty (default 1 page))])
  end.

Definition perform (this : t) (call : Call) : Promise Network json :=
  match call with
  | Search query type page perPage => search this query type page perPage
  | SearchRelease artist album page => searchRelease this artist album page
  | GetRelease releaseId => getRelease this releaseId
  | GetMasterRelease masterId => getMasterRelease this masterId
  | SearchByBarcode barcode => searchByBarcode this barcode
  | SearchByCatalogNumber catno page => searchByCatalogNumber this catno page
  end.

End DiscogsAPI.

(** ** [DiscogsReleaseDetails] (src/utils/discogs.ts) *)

Module Artist.
Record t := { name : string; anv : option string; id : Z }.
End Artist.

Module Label.
Record t := { name : string; catno : string; id : Z }.
End Label.

Module Format.
Record t := { name : string; qty : string; descriptions : option (list string) }.
End Format.

Module Track.
Record t := { position : string; title : string; duration : string }.
End Track.

Module Image.
Record t := { type : string; uri : string; uri150 : string; width : Z; height : Z }.
End Image.

Module Identifier.
Record t := { type : string; value : string }.
End Identifier.

(** The three arrays that the interface declares as always present are
    options as well: [handleSelectRelease] reads them with [?.] and so
    accepts a release without them. *)
Module Release.
Record t := {
  id : Z;
  title : string;
  artists : option (list Artist.t);
  year : option Z;
  released : option string;
  country : option string;
  labels : option (list Label.t);
  formats : option (list Format.t);
  genres : option (list string);
  styles : option (list string);
  tracklist : option (list Track.t);
  images : option (list Image.t);
  identifiers : option (list Identifier.t);
  notes : option string;
  uri : option string;
  resource_url : option string;
}.
End Release.

(** [array?.[0]] *)
Definition first {A} (array : option (list A)) : option A :=
  match array with
  | Some (x :: _) => Some x
  | _ => None
  end.

(** ** [handleSelectRelease] and [loadRecords] of the [App] component *)

Module App.

(** The [vinylData] object built from the release. *)
Definition vinylData (release : Release.t) : Partial.VinylData :=
  {| Partial.artistName :=
       Some (Some (or_empty (Artist.name <$> first (Release.artists release))));
     Partial.albumName := Some (Some (or_empty (Some (Release.title release))));
     Partial.serialNumber :=
       Some (Some (or_empty (Label.catno <$> first (Release.labels release))));
     Partial.matrixRunout :=
       Some (Some (or_empty
         (Identifier.value <$>
            (identifiers ← Release.identifiers release;
             snd <$> list_find
               (λ i, Identifier.type i = "Matrix / Runout") identifiers))));
     Partial.year := Some (Release.year release);
     Partial.country := Some (Release.country release);
     Partial.genre := Some (Release.genres release);
     Partial.style := Some (Release.styles release);
     Partial.label := Some (Label.name <$> first (Release.labels release));
     Partial.format := Some (Format.name <$> first (Release.formats release));
     Partial.discogsId := Some (Some (Release.id release));
     Partial.discogsUrl := Some (Release.uri release) |}.

(** [release.images?.[0]?.uri || release.images?.[0]?.uri150 || undefined] *)
Definition coverImageUrl (release : Release.t) : option string :=
  or_else (Image.uri <$> first (Release.images release))
    (or_else (Image.uri150 <$> first (Release.images release)) None).

(** The argument handed to [api.createRecord]:
    [{ ...vinylData, imageUrl: coverImageUrl }]. *)
Definition recordInput (release : Release.t) : Input.t :=
  {| Input.fields := vinylData release;
     Input.imageUrl := coverImageUrl release |}.

(** What the component holds: the device, the loaded records, the
    [isSaving] flag and the alerts shown so far. *)
Record State := {
  storage : AsyncStorage;
  records : list VinylRecord;
  isLoadingRecords : bool;
  isSaving : bool;
  alerts : list (string * string);
}.

Definition on_storage {A} (p : Promise AsyncStorage A) : Promise State A :=
  λ s, let '(o, st) := p (storage s) in
       (o, {| storage := st; records := records s;
              isLoadingRecords := isLoadingRecords s;
              isSaving := isSaving s; alerts := alerts s |}).

Definition setRecords (rs : list VinylRecord) : Promise State unit :=
  λ s, (Returns tt, {| storage := storage s; records := rs;
                       isLoadingRecords := isLoadingRecords s;
                       isSaving := isSaving s; alerts := alerts s |}).

Definition setIsLoadingRecords (b : bool) : Promise State unit :=
  λ s, (Returns tt, {| storage := storage s; records := records s;
                       isLoadingRecords := b;
                       isSaving := isSaving s; alerts := alerts s |}).

Definition setIsSaving (b : bool) : Promise State unit :=
  λ s, (Returns tt, {| storage := storage s; records := records s;
                       isLoadingRecords := isLoadingRecords s;
                       isSaving := b; alerts := alerts s |}).

Definition alert (title message : string) : Promise State unit :=
  λ s, (Returns tt, {| storage := storage s; records := records s;
                       isLoadingRecords := isLoadingRecords s;
                       isSaving := isSaving s;
                       alerts := (alerts s ++ [(title, message)])%list |}).

(** [try { body } finally { cleanup }] *)
Definition try_finally {A} (body : Promise State A) (cleanup : Promise State unit)
  : Promise State A :=
  λ s, let '(o, s') := body s in
       match cleanup s' with
       | (Returns _, s'') => (o, s'')
       | (Throws t, s'') => (Throws t, s'')
       end.

(** [setRecords(data || [])]: [data] is an array, which is truthy. *)
Definition loadRecords : Promise State unit :=
  setIsLoadingRecords true ;;;
  try_finally
    (try_catch
       (let* data := on_storage api.getRecords in
        setRecords data)
       (λ error, alert "Error" "Failed to load records"))
    (setIsLoadingRecords false).

Definition handleSelectRelease (release : Release.t) (now : Z) (rnd : string)
  : Promise State unit :=
  setIsSaving true ;;;
  try_finally
    (try_catch
       (on_storage (api.createRecord (recordInput release) now rnd) ;;;
        alert "Success" "Record added to collection!" ;;;
        loadRecords)
       (λ error, alert "Error" "Failed to add record to collection"))
    (setIsSaving false).

End App.

(** The network after [request] went out. *)
Definition sent (net : Network) (request : HttpRequest) : Network :=
  {| answer := answer net; issued := issued net ++ [request] |}.

(** [value.message] for a value other than [null]. *)
Definition message_of (value : json) : option json :=
  match value with
  | JObject members => member "message" members
  | _ => None
  end.

(** ** A driver for the uniqueness property: creations in succession *)

(** [createRecord] called once per element of [calls], each call with its
    input, its [Date.now()] and its random suffix; the records returned, in
    order. *)
Fixpoint create_in_succession (calls : list (Input.t * Z * string))
  : Promise AsyncStorage (list VinylRecord) :=
  match calls with
  | [] => resolve []
  | (record, now, rnd) :: rest =>
      let* created := api.createRecord record now rnd in
      let* others := create_in_succession rest in
      resolve (created :: others)
  end.

(** ** Views used in the statements *)

(** The record sequence a device holds, as the store reads it. *)
Definition collection (st : AsyncStorage) : list VinylRecord :=
  if getItem_rejects st then []
  else match item st with
       | Some (Json records) => records
       | Some EmptyText | Some (Garbled _) | None => []
       end.

(** The device after a write of [records] that it accepts. *)
Definition written (st : AsyncStorage) (records : list VinylRecord) : AsyncStorage :=
  {| item := Some (Json records);
     getItem_rejects := getItem_rejects st;
     setItem_rejects := setItem_rejects st |}.

(** [new] is what a property named or not by [upd] becomes from [old]. *)
Definition merges {A} (old : A) (upd : option A) (new : A) : Prop :=
  match upd with
  | Some v => new = v
  | None => new = old
  end.

(** The class of a thrown value, when it is an [Error] object. *)
Definition error_class (t : Thrown) : option ErrorClass :=
  match t with
  | ErrorInstance cls _ => Some cls
  | NonError _ => None
  end.

(** ** Devices, inputs and networks used as examples, and further views *)

Definition record_one : VinylRecord :=
  {| data := {| artistName := Some "A"; albumName := Some "One";
                serialNumber := Some ""; matrixRunout := Some "";
                year := None; country := None;
                genre := None; style := None; label := None;
                format := None; discogsId := None; discogsUrl := None |};
     id := "record_1_aaa"; imageUrl := None; createdAt := 1; updatedAt := 1 |}.

Definition record_two : VinylRecord :=
  {| data := {| artistName := Some "B"; albumName := Some "Two";
                serialNumber := Some ""; matrixRunout := Some "";
                year := Some 1999; country := None;
                genre := None; style := None; label := None;
                format := None; discogsId := None; discogsUrl := None |};
     id := "record_2_bbb"; imageUrl := None; createdAt := 2; updatedAt := 2 |}.

(** A device that serves reads and accepts writes and holds two records. *)
Definition shelf_of_two : AsyncStorage :=
  {| item := Some (Json [record_one; record_two]);
     getItem_rejects := false;
     setItem_rejects := false |}.

(** A device that serves reads and accepts writes and holds nothing yet. *)
Definition blank : AsyncStorage :=
  {| item := None; getItem_rejects := false; setItem_rejects := false |}.

(** [{ artistName: 'Miles Davis', year: 1959, imageUrl: 'file:///kob.jpg' }] *)
Definition kind_of_blue : Input.t :=
  {| Input.fields :=
       {| Partial.artistName := Some (Some "Miles Davis");
          Partial.albumName := Some (Some "Kind of Blue");
          Partial.serialNumber := None;
          Partial.matrixRunout := None;
          Partial.year := Some (Some 1959);
          Partial.country := None; Partial.genre := None; Partial.style := None;
          Partial.label := Some (Some "Columbia"); Partial.format := None;
          Partial.discogsId := None; Partial.discogsUrl := None |};
     Input.imageUrl := Some "file:///kob.jpg" |}.

(** [{ year: 1999 }] *)
Definition year_1999 : Partial.VinylData :=
  {| Partial.artistName := None; Partial.albumName := None;
     Partial.serialNumber := None; Partial.matrixRunout := None;
     Partial.year := Some (Some 1999); Partial.country := None;
     Partial.genre := None; Partial.style := None; Partial.label := None;
     Partial.format := None; Partial.discogsId := None;
     Partial.discogsUrl := None |}.

(** A record of another collection, with a cover. *)
Definition reissue : VinylRecord :=
  {| data := {| artistName := Some "C"; albumName := Some "Three";
                serialNumber := Some "CAT 3"; matrixRunout := Some "";
                year := Some 2003; country := None;
                genre := None; style := None; label := None;
                format := None; discogsId := None; discogsUrl := None |};
     id := "record_7_ccc"; imageUrl := Some "file:///three.jpg";
     createdAt := 7; updatedAt := 7 |}.

(** [{ artistName: undefined, id: 'record_1_aaa' }]: a text property held
    as [undefined], and the id the record has already. *)
Definition blanked_artist : Updates.t :=
  {| Updates.fields :=
       {| Partial.artistName := Some None; Partial.albumName := None;
          Partial.serialNumber := None; Partial.matrixRunout := None;
          Partial.year := None; Partial.country := None;
          Partial.genre := None; Partial.style := None; Partial.label := None;
          Partial.format := None; Partial.discogsId := None;
          Partial.discogsUrl := None |};
     Updates.id := Some "record_1_aaa"; Updates.imageUrl := None;
     Updates.createdAt := None; Updates.updatedAt := None |}.

(** Values that a stored text can parse to: an array of records, or any
    other JSON value. *)
Inductive Parsed :=
| Records (records : list VinylRecord)
| NotRecords (value : json).

(** A device whose slot holds the text [null]. *)
Definition slot_of_null : Raw.AsyncStorage Parsed :=
  {| Raw.item := Some (Raw.Parses (NotRecords JNull));
     Raw.getItem_rejects := false;
     Raw.setItem_rejects := false |}.

(** A device whose slot holds the text [{"version":2}]. *)
Definition slot_of_object : Raw.AsyncStorage Parsed :=
  {| Raw.item := Some (Raw.Parses (NotRecords (JObject [("version", JNumber 2)])));
     Raw.getItem_rejects := false;
     Raw.setItem_rejects := false |}.

(** The device of [shelf_of_two] when it rejects writes. *)
Definition shelf_read_only : AsyncStorage :=
  {| item := item shelf_of_two; getItem_rejects := false; setItem_rejects := true |}.

(** The character [c] does not occur in [s]. *)
Fixpoint free_of (c : ascii) (s : string) : Prop :=
  match s with
  | EmptyString => True
  | String a rest => a ≠ c ∧ free_of c rest
  end.

(** The time and the random suffix of a call. *)
Definition draw (call : Input.t * Z * string) : Z * string :=
  (call.1.2, call.2).

Definition id_of_draw (d : Z * string) : string :=
  "record_" +:+ pretty d.1 +:+ "_" +:+ d.2.

(** A network on which every release is unknown. *)
Definition all_not_found : Network :=
  {| answer := λ _, Returns
       {| ok := false; status := 404; statusText := "Not Found";
          body_json := Returns (JObject [("message", JString "Release not found.")]) |};
     issued := [] |}.

(** A client holding a token. *)
Definition with_token : DiscogsAPI.t :=
  DiscogsAPI.setToken (DiscogsAPI.new None) "s3cr3t".

(** A network that is down: [fetch] rejects with the platform's
    [TypeError]. *)
Definition offline : Network :=
  {| answer := λ _, Throws (ErrorInstance TypeError "Network request failed");
     issued := [] |}.

(** The device, the records on screen and the alerts once
    [handleSelectRelease] has stored the record [r]. *)
Definition added (s : App.State) (r : VinylRecord) : App.State :=
  let st := written (App.storage s) (collection (App.storage s) ++ [r]) in
  {| App.storage := st;
     App.records := collection st;
     App.isLoadingRecords := false;
     App.isSaving := false;
     App.alerts := App.alerts s ++ [("Success", "Record added to collection!")] |}.

(** The release of the end-to-end scenario. *)
Definition kind_of_blue_release : Release.t :=
  {| Release.id := 249504;
     Release.title := "Miles Davis - Kind of Blue";
     Release.artists := Some [ {| Artist.name := "Miles Davis"; Artist.anv := None;
                                  Artist.id := 23755 |} ];
     Release.year := Some 1959;
     Release.released := None;
     Release.country := Some "US";
     Release.labels := Some [ {| Label.name := "Columbia"; Label.catno := "CL 1355";
                                 Label.id := 1866 |} ];
     Release.formats := Some [ {| Format.name := "Vinyl"; Format.qty := "1";
                                  Format.descriptions := Some ["LP"; "Album"] |} ];
     Release.genres := Some ["Jazz"];
     Release.styles := Some ["Modal"];
     Release.tracklist := None;
     Release.images := Some [ {| Image.type := "primary"; Image.uri := "";
                                 Image.uri150 := "https://img.example/kob-150.jpg";
                                 Image.width := 600; Image.height := 600 |} ];
     Release.identifiers :=
       Some [ {| Identifier.type := "Barcode"; Identifier.value := "0 7464-08163-1" |};
              {| Identifier.type := "Matrix / Runout"; Identifier.value := "XLP 47324-1A" |};
              {| Identifier.type := "Matrix / Runout"; Identifier.value := "XLP 47325-1B" |} ];
     Release.notes := None;
     Release.uri := Some "https://www.discogs.com/release/249504";
     Release.resource_url := None |}.

(** The component before anything was stored. *)
Definition fresh_app : App.State :=
  {| App.storage := blank; App.records := []; App.isLoadingRecords := false;
     App.isSaving := false; App.alerts := [] |}.

(** ** The rest of the [App] component: the form and its handlers *)

(** [try { body } finally { cleanup }], over any state. *)
Definition try_finally {S A} (body : Promise S A) (cleanup : Promise S unit)
  : Promise S A :=
  λ s, let '(o, s') := body s in
       match cleanup s' with
       | (Returns _, s'') => (o, s'')
       | (Throws t, s'') => (Throws t, s'')
       end.

(** [{ ...data }] as an argument of [createRecord]: the text properties
    named with what they hold, an optional property named when the data
    holds a value for it. *)
Definition spread_data (d : VinylData) : Partial.VinylData :=
  {| Partial.artistName := Some (artistName d);
     Partial.albumName := Some (albumName d);
     Partial.serialNumber := Some (serialNumber d);
     Partial.matrixRunout := Some (matrixRunout d);
     Partial.year := Some <$> year d;
     Partial.country := Some <$> country d;
     Partial.genre := Some <$> genre d;
     Partial.style := Some <$> style d;
     Partial.label := Some <$> label d;
     Partial.format := Some <$> format d;
     Partial.discogsId := Some <$> discogsId d;
     Partial.discogsUrl := Some <$> discogsUrl d |}.

Module Form.

(** The state of [App] that [App.State] leaves out, beside it. *)
Record State := {
  base : App.State;
  uploadedImage : option string;
  extractedData : option VinylData;
  isProcessing : bool;
}.

Definition on_base {A} (p : Promise App.State A) : Promise State A :=
  λ s, let '(o, b) := p (base s) in
       (o, {| base := b; uploadedImage := uploadedImage s;
              extractedData := extractedData s; isProcessing := isProcessing s |}).

Definition setUploadedImage (v : option string) : Promise State unit :=
  λ s, (Returns tt, {| base := base s; uploadedImage := v;
                       extractedData := extractedData s;
                       isProcessing := isProcessing s |}).

Definition setExtractedData (v : option VinylData) : Promise State unit :=
  λ s, (Returns tt, {| base := base s; uploadedImage := uploadedImage s;
                       extractedData := v; isProcessing := isProcessing s |}).

Definition setIsProcessing (b : bool) : Promise State unit :=
  λ s, (Returns tt, {| base := base s; uploadedImage := uploadedImage s;
                       extractedData := extractedData s; isProcessing := b |}).

(** What [handleImageUpload] does at once. *)
Definition handleImageUpload (imageUrl : string) : Promise State unit :=
  setUploadedImage (Some imageUrl) ;;;
  setIsProcessing true.

(** The callback that [handleImageUpload] hands to [setTimeout]. *)
Definition ocr_timer : Promise State unit :=
  setExtractedData None ;;;
  setIsProcessing false ;;;
  on_base (App.alert "OCR Note"
    "OCR processing requires cloud integration. For now, you can manually enter data or use Discogs search.").

Definition handleReset : Promise State unit :=
  setUploadedImage None ;;;
  setExtractedData None ;;;
  setIsProcessing false.

Definition handleDataUpdate (data : VinylData) : Promise State unit :=
  setExtractedData (Some data).

(** The argument of [createRecord] in [handleSaveRecord]:
    [{ ...extractedData, imageUrl: uploadedImage || undefined }]. *)
Definition saveInput (data : VinylData) (uploadedImage : option string) : Input.t :=
  {| Input.fields := spread_data data;
     Input.imageUrl := or_else uploadedImage None |}.

Definition handleSaveRecord (now : Z) (rnd : string) : Promise State unit :=
  λ s,
    match extractedData s with
    | None =>
        on_base (App.alert "No Data" "Please extract or enter vinyl data first") s
    | Some data =>
        (on_base (App.setIsSaving true) ;;;
         try_finally
           (try_catch
              (on_base (App.on_storage
                 (api.createRecord (saveInput data (uploadedImage s)) now rnd)) ;;;
               on_base (App.alert "Success" "Record saved to collection!") ;;;
               handleReset ;;;
               on_base App.loadRecords)
              (λ error, on_base (App.alert "Error" "Failed to save record")))
           (on_base (App.setIsSaving false))) s
    end.

Definition handleDeleteRecord (id0 : string) : Promise App.State unit :=
  try_catch
    (App.on_storage (api.deleteRecord id0) ;;;
     App.alert "Deleted" "Record removed from collection" ;;;
     App.loadRecords)
    (λ error, App.alert "Error" "Failed to delete record").

End Form.

(** ** src/components/AlbumCover.tsx and its use in the collection *)

(** What [AlbumCover] returns: the image, or the placeholder with its
    caption; both in a square of the given size. *)
Inductive Cover :=
| CoverImage (uri : string) (size : Z)
| CoverPlaceholder (caption : string) (size : Z).

(** [size] defaults to 200.  The caption is [albumName || 'No Image'],
    which an [undefined] name fails like an empty one. *)
Definition AlbumCover (artistName albumName : option string)
    (uploadedImageUrl : option string) (size : option Z) : Cover :=
  let placeholder :=
    CoverPlaceholder
      (match albumName with
       | Some name => if truthy name then name else "No Image"
       | None => "No Image"
       end)
      (default 200 size) in
  match uploadedImageUrl with
  | Some uri => if truthy uri then CoverImage uri (default 200 size) else placeholder
  | None => placeholder
  end.

(** The cover in the card of a record in [CollectionScreen]. *)
Definition record_cover (record : VinylRecord) : Cover :=
  AlbumCover (artistName record) (albumName record) (imageUrl record) (Some 100).

(** ** [DiscogsSearchScreen] *)

(** [value.key] for a key that is no built-in property of strings and
    arrays: a [TypeError] on [null], the member of an object, [undefined]
    on every other JSON value. *)
Definition get_property (key : string) (value : json) : Outcome (option json) :=
  match value with
  | JNull =>
      Throws (ErrorInstance TypeError
                ("Cannot read property '" +:+ key +:+ "' of null"))
  | JObject members => Returns (member key members)
  | _ => Returns None
  end.

(** [value.length === 0] for a truthy [value]: an array without items, or
    an object whose [length] member is the number 0. *)
Definition length_is_zero (value : json) : bool :=
  match value with
  | JArray items => bool_decide (items = [])
  | JObject members =>
      match member "length" members with
      | Some (JNumber n) => bool_decide (n = 0)
      | _ => false
      end
  | _ => false
  end.

(** The text a template literal gives a property value. *)
Definition property_text (v : option json) : string :=
  match v with
  | Some value => to_text value
  | None => "undefined"
  end.

(** The one-character text of a double quote. *)
Definition double_quote : string := String "034"%char EmptyString.

(** [error instanceof Error ? error.message : fallback] *)
Definition message_or (fallback : string) (error : Thrown) : string :=
  match error with
  | ErrorInstance _ message => message
  | NonError _ => fallback
  end.

Module SearchScreen.

(** The state of the screen; [prompts] are the confirmations shown, each
    with its message and the release that its [Add] button hands to
    [onSelectRelease]. *)
Record State := {
  searchQuery : string;
  isSearching : bool;
  results : json;
  isConfigured : bool;
  alerts : list (string * string);
  prompts : list (string * json);
}.

(** The screen and the network that the shared client talks to. *)
Record World := {
  screen : State;
  network : Network;
}.

(** The state at mount; [isConfigured] is read from the client once. *)
Definition mount (discogsAPI : DiscogsAPI.t) : State :=
  {| searchQuery := ""; isSearching := false; results := JArray [];
     isConfigured := DiscogsAPI.isConfigured discogsAPI;
     alerts := []; prompts := [] |}.

Definition on_network {A} (p : Promise Network A) : Promise World A :=
  λ w, let '(o, net) := p (network w) in
       (o, {| screen := screen w; network := net |}).

Definition on_screen (f : State → State) : Promise World unit :=
  λ w, (Returns tt, {| screen := f (screen w); network := network w |}).

Definition setSearchQuery (text : string) : Promise World unit :=
  on_screen (λ s, {| searchQuery := text; isSearching := isSearching s;
                      results := results s; isConfigured := isConfigured s;
                      alerts := alerts s; prompts := prompts s |}).

Definition setIsSearching (b : bool) : Promise World unit :=
  on_screen (λ s, {| searchQuery := searchQuery s; isSearching := b;
                      results := results s; isConfigured := isConfigured s;
                      alerts := alerts s; prompts := prompts s |}).

Definition setResults (v : json) : Promise World unit :=
  on_screen (λ s, {| searchQuery := searchQuery s; isSearching := isSearching s;
                      results := v; isConfigured := isConfigured s;
                      alerts := alerts s; prompts := prompts s |}).

Definition alert (title message : string) : Promise World unit :=
  on_screen (λ s, {| searchQuery := searchQuery s; isSearching := isSearching s;
                      results := results s; isConfigured := isConfigured s;
                      alerts := alerts s ++ [(title, message)];
                      prompts := prompts s |}).

Definition prompt (message : string) (release : json) : Promise World unit :=
  on_screen (λ s, {| searchQuery := searchQuery s; isSearching := isSearching s;
                      results := results s; isConfigured := isConfigured s;
                      alerts := alerts s;
                      prompts := prompts s ++ [(message, release)] |}).

Section handlers.

(** [String.prototype.trim] and the shared client [discogsAPI]. *)
Variable trim : string → string.
Variable discogsAPI : DiscogsAPI.t.

Definition handleSearch : Promise World unit :=
  λ w,
    if negb (isConfigured (screen w)) then
      alert "Configuration Required"
        "Please configure your Discogs API credentials first" w
    else if negb (truthy (trim (searchQuery (screen w)))) then
      alert "Search Required" "Please enter a search query" w
    else
      (setIsSearching true ;;;
       setResults (JArray []) ;;;
       try_finally
         (try_catch
            (let* response :=
               on_network (DiscogsAPI.search discogsAPI
                             (trim (searchQuery (screen w)))
                             (Some SearchType.release) None None) in
             let* found := complete (get_property "results" response) in
             setResults (match found with
                         | Some value => if truthy_value found then value else JArray []
                         | None => JArray []
                         end) ;;;
             match found with
             | Some value =>
                 if negb (truthy_value found) || length_is_zero value
                 then alert "No Results" "No results found. Try a different search."
                 else resolve tt
             | None => alert "No Results" "No results found. Try a different search."
             end)
            (λ error,
               alert "Search Error" (message_or "Failed to search Discogs" error)))
         (setIsSearching false)) w.

(** [result.id] is all that [handleSelectResult] reads of the result. *)
Definition handleSelectResult (result_id : Z) : Promise World unit :=
  try_catch
    (let* releaseDetails := on_network (DiscogsAPI.getRelease discogsAPI result_id) in
     let* title := complete (get_property "title" releaseDetails) in
     prompt ("Add " +:+ double_quote +:+ property_text title +:+ double_quote
               +:+ " to your collection?")
       releaseDetails)
    (λ error, alert "Error" "Failed to fetch release details").

End handlers.

End SearchScreen.

(** ** Further states, responses and networks used as examples *)

(** The form with an uploaded image and data entered, over a component
    that has stored nothing yet. *)
Definition form_with_data : Form.State :=
  {| Form.base := fresh_app;
     Form.uploadedImage := Some "file:///a.jpg";
     Form.extractedData :=
       Some {| artistName := Some "Miles Davis"; albumName := Some "Kind of Blue";
               serialNumber := Some "CL 1355"; matrixRunout := Some "";
               year := Some 1959;
               country := None; genre := None; style := None; label := None;
               format := None; discogsId := None; discogsUrl := None |};
     Form.isProcessing := false |}.


(** A network that answers every request with [response]. *)
Definition answering (response : Response) : Network :=
  {| answer := λ _, Returns response; issued := [] |}.

(** The response [200 OK] with the body [body]. *)
Definition ok_with (body : json) : Response :=
  {| ok := true; status := 200; statusText := "OK"; body_json := Returns body |}.

(** The body of a search that found one release. *)
Definition found_body : json :=
  JObject [("results",
            JArray [JObject [("id", JNumber 249504);
                             ("title", JString "Miles Davis - Kind of Blue")]])].

(** The response [502 Bad Gateway] with the body [null]. *)
Definition bad_gateway_null : Response :=
  {| ok := false; status := 502; statusText := "Bad Gateway";
     body_json := Returns JNull |}.

(** * Properties *)

(** ** Reading and writing the backing store *)

Lemma getStoredRecords_collection st :
  getStoredRecords st = (Returns (collection st), st).
Proof.
  unfold getStoredRecords, try_catch, await, getItem, collection.
  destruct (getItem_rejects st); [done|].
  destruct (item st) as [[| |]|]; done.
Qed.

(** Every operation of the store begins with [await getStoredRecords()]. *)
Ltac read_store :=
  unfold await; rewrite getStoredRecords_collection.

Lemma saveRecords_accepted st records :
  setItem_rejects st = false →
  saveRecords records st = (Returns tt, written st records).
Proof.
  intros Hw. unfold saveRecords, try_catch, setItem, written, JSON_stringify.
  by rewrite Hw.
Qed.

Lemma saveRecords_rejected st records :
  setItem_rejects st = true →
  saveRecords records st = (Throws (ErrorInstance Error "Failed to save data"), st).
Proof.
  intros Hw. unfold saveRecords, try_catch, setItem. by rewrite Hw.
Qed.

Lemma collection_written st records :
  getItem_rejects st = false → collection (written st records) = records.
Proof. intros Hr. unfold collection, written; simpl. by rewrite Hr. Qed.

Lemma collection_rejecting st :
  getItem_rejects st = true → collection st = [].
Proof. intros Hr. unfold collection. by rewrite Hr. Qed.

Lemma written_written st rs1 rs2 :
  written (written st rs1) rs2 = written st rs2.
Proof. done. Qed.

(** What [Raw.getStoredRecords] gives on each state of the slot. *)
Lemma Raw_getStoredRecords_run {Value} (array : list VinylRecord → Value)
    (st : Raw.AsyncStorage Value) :
  Raw.getStoredRecords array st
  = (Returns (if Raw.getItem_rejects st then array []
              else match Raw.item st with
                   | None => array []
                   | Some Raw.EmptyText => array []
                   | Some (Raw.Garbled _) => array []
                   | Some (Raw.Parses parsed) => parsed
                   end), st).
Proof.
  unfold Raw.getStoredRecords, try_catch, await, Raw.getItem.
  destruct (Raw.getItem_rejects st); [done|].
  by destruct (Raw.item st) as [[| |]|].
Qed.

(** A slot that holds the text [null] makes [getRecords] return [null],
    and one that holds the text of an object, that object. *)
Example getRecords_of_foreign_text :
  Raw.getRecords Records slot_of_null = (Returns (NotRecords JNull), slot_of_null)
  ∧ Raw.getRecords Records slot_of_object
    = (Returns (NotRecords (JObject [("version", JNumber 2)])), slot_of_object).
Proof. split; apply Raw_getStoredRecords_run. Qed.


(** ** Deletion *)

Lemma filter_keeps_all {A} (P : A → Prop) `{!∀ x, Decision (P x)} (l : list A) :
  (∀ x, x ∈ l → P x) → filter P l = l.
Proof.
  induction l as [|x l IH]; intros Hall; [done|].
  rewrite filter_cons_True by (apply Hall; left).
  f_equal. apply IH. intros y Hy. apply Hall. by right.
Qed.

Lemma deleteRecord_accepted st id0 :
  setItem_rejects st = false →
  api.deleteRecord id0 st
  = (Returns tt, written st (filter (λ r, id r ≠ id0) (collection st))).
Proof.
  intros Hw. unfold api.deleteRecord. read_store. by apply saveRecords_accepted.
Qed.

Lemma deleteRecord_rejected st id0 :
  setItem_rejects st = true →
  api.deleteRecord id0 st = (Throws (ErrorInstance Error "Failed to save data"), st).
Proof.
  intros Hw. unfold api.deleteRecord. read_store. by apply saveRecords_rejected.
Qed.

(** Whatever the device does, a second deletion of the same id settles as
    the first did and leaves the device as the first left it. *)
Lemma deleteRecord_twice st id0 :
  api.deleteRecord id0 (api.deleteRecord id0 st).2 = api.deleteRecord id0 st.
Proof.
  destruct (setItem_rejects st) eqn:Hw.
  - rewrite (deleteRecord_rejected st) by done. simpl.
    by apply deleteRecord_rejected.
  - rewrite (deleteRecord_accepted st) by done. simpl.
    rewrite deleteRecord_accepted by done. rewrite written_written.
    do 2 f_equal.
    destruct (getItem_rejects st) eqn:Hr.
    + unfold collection; simpl. by rewrite Hr.
    + rewrite collection_written by done.
      apply filter_keeps_all. by intros r [? _]%list_elem_of_filter.
Qed.

(** C8.  On a device that accepts the write, [deleteRecord] does not raise;
    the collection afterwards is the old one without the records of that
    id, the others in their order; for an id that no record has it is the
    old collection; and deleting the same id a second time settles alike
    and leaves the device exactly as the first deletion left it. *)
Theorem deleteRecord_absent_and_idempotent (st : AsyncStorage) (id0 : string) :
  setItem_rejects st = false →
  ∃ st',
    api.deleteRecord id0 st = (Returns tt, st')
    ∧ collection st' = filter (λ r, id r ≠ id0) (collection st)
    ∧ (∀ r, r ∈ collection st' → id r ≠ id0)
    ∧ (id0 ∉ id <$> collection st → collection st' = collection st)
    ∧ api.deleteRecord id0 st' = (Returns tt, st').
Proof.
  intros Hw.
  exists (written st (filter (λ r, id r ≠ id0) (collection st))).
  assert (Hdel := deleteRecord_accepted st id0 Hw).
  assert (Hcol : collection (written st (filter (λ r, id r ≠ id0) (collection st)))
                 = filter (λ r, id r ≠ id0) (collection st)).
  { destruct (getItem_rejects st) eqn:Hr.
    - unfold collection; simpl. by rewrite Hr.
    - by apply collection_written. }
  split_and!.
  - done.
  - done.
  - rewrite Hcol. by intros r [? _]%list_elem_of_filter.
  - intros Habsent. rewrite Hcol. apply filter_keeps_all.
    intros r Hr <-. apply Habsent. by apply list_elem_of_fmap_2.
  - pose proof (deleteRecord_twice st id0) as Htwice.
    rewrite Hdel in Htwice. exact Htwice.
Qed.

Lemma deleteRecord_absent_and_idempotent_witness :
  ∃ st',
    api.deleteRecord "record_1_aaa" shelf_of_two = (Returns tt, st')
    ∧ collection st' = filter (λ r, id r ≠ "record_1_aaa") (collection shelf_of_two)
    ∧ (∀ r, r ∈ collection st' → id r ≠ "record_1_aaa")
    ∧ ("record_1_aaa" ∉ id <$> collection shelf_of_two
       → collection st' = collection shelf_of_two)
    ∧ api.deleteRecord "record_1_aaa" st' = (Returns tt, st').
Proof.
  apply (deleteRecord_absent_and_idempotent shelf_of_two "record_1_aaa").
  reflexivity.
Defined.

(** ** Creation *)

Lemma or_empty_default (x : option string) : or_empty x = default "" x.
Proof.
  destruct x as [s|]; [|done]. unfold or_empty, truthy; simpl.
  by case_bool_decide.
Qed.

Lemma or_else_null (x : option string) :
  or_else x None
  = match x with
    | Some s => if bool_decide (s = "") then None else Some s
    | None => None
    end.
Proof.
  destruct x as [s|]; [|done]. unfold or_else, truthy.
  by case_bool_decide.
Qed.

Lemma createRecord_accepted st record now rnd :
  setItem_rejects st = false →
  api.createRecord record now rnd st
  = (Returns (api.newRecord record now rnd),
     written st (collection st ++ [api.newRecord record now rnd])).
Proof.
  intros Hw. unfold api.createRecord. read_store.
  by rewrite saveRecords_accepted.
Qed.

Lemma createRecord_rejected st record now rnd :
  setItem_rejects st = true →
  api.createRecord record now rnd st
  = (Throws (ErrorInstance Error "Failed to save data"), st).
Proof.
  intros Hw. unfold api.createRecord. read_store.
  by rewrite saveRecords_rejected.
Qed.

Lemma getRecord_found st id0 i r :
  list_find (λ r, id r = id0) (collection st) = Some (i, r) →
  api.getRecord id0 st = (Returns r, st).
Proof.
  intros Hfind. unfold api.getRecord. read_store. by rewrite Hfind.
Qed.

Lemma getRecord_missing st id0 :
  list_find (λ r, id r = id0) (collection st) = None →
  api.getRecord id0 st = (Throws NotFoundError, st).
Proof.
  intros Hfind. unfold api.getRecord. read_store. by rewrite Hfind.
Qed.

(** A record whose id occurs nowhere before it is the one found under
    that id once appended. *)
Lemma list_find_appended (records : list VinylRecord) (r : VinylRecord) :
  id r ∉ id <$> records →
  list_find (λ r', id r' = id r) (records ++ [r]) = Some (length records, r).
Proof.
  intros Hfresh. rewrite list_find_app_r.
  - simpl. rewrite decide_True by done. done.
  - apply list_find_None, Forall_forall. intros r' Hr' Heq.
    apply Hfresh. rewrite <- Heq. by apply list_elem_of_fmap_2.
Qed.

Lemma filter_equal_appended (records : list VinylRecord) (r : VinylRecord) :
  id r ∉ id <$> records →
  filter (λ r', r' = r) (records ++ [r]) = [r].
Proof.
  intros Hfresh. rewrite filter_app.
  rewrite (filter_singleton_True _ r []) by done.
  replace (filter (λ r', r' = r) records) with (@nil VinylRecord); [done|].
  symmetry. induction records as [|r' rs IH]; [done|].
  rewrite filter_cons_False.
  - apply IH. intros Hin. apply Hfresh. rewrite fmap_cons. by right.
  - intros ->. apply Hfresh. rewrite fmap_cons. by left.
Qed.

(** C1, as amended.  On a device that serves reads and accepts writes,
    [createRecord] returns a record whose four text fields are the input's,
    the empty string standing in for one that is absent or [undefined];
    whose [imageUrl] is the
    input's when that is a non-empty string and [null] otherwise; whose
    enrichment fields are the input's, [undefined] included; and whose
    [createdAt] and [updatedAt] both are the time of the call.  Afterwards
    [getRecords] yields the former records followed by the new one, and,
    when no former record has the new id, exactly one of them equals the
    returned record and [getRecord] of its id returns it. *)
Theorem createRecord_round_trip (st : AsyncStorage) (x : Input.t) (now : Z) (rnd : string) :
  getItem_rejects st = false →
  setItem_rejects st = false →
  ∃ r st',
    api.createRecord x now rnd st = (Returns r, st')
    ∧ artistName r = Some (default "" (Partial.get (Partial.artistName x)))
    ∧ albumName r = Some (default "" (Partial.get (Partial.albumName x)))
    ∧ serialNumber r = Some (default "" (Partial.get (Partial.serialNumber x)))
    ∧ matrixRunout r = Some (default "" (Partial.get (Partial.matrixRunout x)))
    ∧ imageUrl r = match Input.imageUrl x with
                   | Some s => if bool_decide (s = "") then None else Some s
                   | None => None
                   end
    ∧ year r = Partial.get (Partial.year x)
    ∧ country r = Partial.get (Partial.country x)
    ∧ genre r = Partial.get (Partial.genre x)
    ∧ style r = Partial.get (Partial.style x)
    ∧ label r = Partial.get (Partial.label x)
    ∧ format r = Partial.get (Partial.format x)
    ∧ discogsId r = Partial.get (Partial.discogsId x)
    ∧ discogsUrl r = Partial.get (Partial.discogsUrl x)
    ∧ createdAt r = now
    ∧ updatedAt r = createdAt r
    ∧ api.getRecords st' = (Returns (collection st ++ [r]), st')
    ∧ (id r ∉ id <$> collection st →
       length (filter (λ r', r' = r) (collection st ++ [r])) = 1%nat
       ∧ api.getRecord (id r) st' = (Returns r, st')).
Proof.
  intros Hr Hw.
  exists (api.newRecord x now rnd),
         (written st (collection st ++ [api.newRecord x now rnd])).
  split; [by apply createRecord_accepted|].
  repeat (split; [first [apply (f_equal Some), or_empty_default
                        | apply or_else_null | reflexivity]|]).
  split.
  - unfold api.getRecords. rewrite getStoredRecords_collection.
    by rewrite collection_written.
  - intros Hfresh. split.
    + by rewrite filter_equal_appended.
    + eapply getRecord_found. rewrite collection_written by done.
      by apply list_find_appended.
Qed.

Lemma createRecord_round_trip_witness :
  ∃ r st',
    api.createRecord kind_of_blue 1700000000000 "k3x9q0z1a" blank = (Returns r, st')
    ∧ artistName r = Some "Miles Davis"
    ∧ serialNumber r = Some ""
    ∧ imageUrl r = Some "file:///kob.jpg"
    ∧ year r = Some 1959
    ∧ updatedAt r = createdAt r
    ∧ api.getRecords st' = (Returns [r], st')
    ∧ api.getRecord (id r) st' = (Returns r, st').
Proof.
  destruct (createRecord_round_trip blank kind_of_blue 1700000000000 "k3x9q0z1a"
              eq_refl eq_refl)
    as (r & st' & Hc & Ha & _ & Hs & _ & Hi & Hy & _ & _ & _ & _ & _ & _ & _ & _ & Hu & Hl & Hf).
  exists r, st'. split_and!; try done.
  apply Hf. simpl. apply not_elem_of_nil.
Defined.

(** C1 as stated fails.  An input whose [imageUrl] is the empty string
    gets [null], not its [imageUrl].  A creation that draws the same time
    and the same random suffix as an earlier one of the same input leaves
    two records equal to the returned one; after an earlier one of another
    input, [getRecord] of the new id returns the earlier record. *)
Lemma createRecord_round_trip_fails :
  let x := {| Input.fields := Partial.empty; Input.imageUrl := Some "" |} in
  (∃ r st', api.createRecord x 1700000000000 "k3x9q0z1a" blank = (Returns r, st')
            ∧ imageUrl r ≠ Input.imageUrl x)
  ∧ (∃ r1 st1 r2 st2,
       api.createRecord x 1700000000000 "k3x9q0z1a" blank = (Returns r1, st1)
       ∧ api.createRecord x 1700000000000 "k3x9q0z1a" st1 = (Returns r2, st2)
       ∧ api.getRecords st2 = (Returns [r1; r2], st2)
       ∧ length (filter (λ r', r' = r2) [r1; r2]) = 2%nat)
  ∧ (∃ r1 st1 r2 st2,
       api.createRecord kind_of_blue 1700000000000 "k3x9q0z1a" blank = (Returns r1, st1)
       ∧ api.createRecord x 1700000000000 "k3x9q0z1a" st1 = (Returns r2, st2)
       ∧ api.getRecord (id r2) st2 = (Returns r1, st2)
       ∧ r1 ≠ r2).
Proof.
  split_and!.
  - eexists _, _. split; [by apply createRecord_accepted|]. simpl. discriminate.
  - eexists _, _, _, _.
    split_and!; [by apply createRecord_accepted..| |]; by vm_compute.
  - eexists _, _, _, _.
    split_and!; [by apply createRecord_accepted..|by vm_compute|discriminate].
Qed.

(** ** Update *)

Lemma updateRecord_found st id0 updates now i r :
  list_find (λ r, id r = id0) (collection st) = Some (i, r) →
  setItem_rejects st = false →
  api.updateRecord id0 updates now st
  = (Returns (api.merged r updates now),
     written st (<[i := api.merged r updates now]> (collection st))).
Proof.
  intros Hfind Hw. unfold api.updateRecord. read_store. rewrite Hfind.
  by rewrite saveRecords_accepted.
Qed.

Lemma updateRecord_found_rejected st id0 updates now i r :
  list_find (λ r, id r = id0) (collection st) = Some (i, r) →
  setItem_rejects st = true →
  api.updateRecord id0 updates now st
  = (Throws (ErrorInstance Error "Failed to save data"), st).
Proof.
  intros Hfind Hw. unfold api.updateRecord. read_store. rewrite Hfind.
  by rewrite saveRecords_rejected.
Qed.

Lemma updateRecord_missing st id0 updates now :
  list_find (λ r, id r = id0) (collection st) = None →
  api.updateRecord id0 updates now st = (Throws NotFoundError, st).
Proof.
  intros Hfind. unfold api.updateRecord. read_store. by rewrite Hfind.
Qed.

Lemma merges_default {A} (old : A) (upd : option A) :
  merges old upd (default old upd).
Proof. by destruct upd. Qed.

(** No record has the id exactly when the scan for it finds nothing. *)
Lemma find_none_absent (records : list VinylRecord) (id0 : string) :
  list_find (λ r, id r = id0) records = None ↔ id0 ∉ id <$> records.
Proof.
  rewrite list_find_None, Forall_forall. split.
  - intros Hall (r & -> & Hr)%list_elem_of_fmap. by apply (Hall r).
  - intros Habsent r Hr <-. apply Habsent. by apply list_elem_of_fmap_2.
Qed.

(** Some record has the id exactly when the scan finds one. *)
Lemma find_some_present (records : list VinylRecord) (id0 : string) :
  id0 ∈ id <$> records →
  ∃ i r, list_find (λ r, id r = id0) records = Some (i, r).
Proof.
  intros Hin. destruct (list_find _ records) as [[i r]|] eqn:Hfind; [eauto|].
  by apply find_none_absent in Hfind.
Qed.

(** C2, as amended.  Let [r] be the record the store finds under [id0],
    the first with that id.  On a device that accepts the write,
    [updateRecord] returns a record in which every property that the
    updates carry has the value given there, [undefined] included, and
    every other property is the one of [r]: the twelve of the data, and
    [id], [imageUrl] and [createdAt].  The one exception is [updatedAt]:
    it is the time of the call whatever the updates carry, so it is not
    before the former [updatedAt] when the clock did not go back, and
    after it exactly when the clock has advanced past it.  When no record
    has the id, [updateRecord] raises the not-found error and leaves the
    device alone. *)
Theorem updateRecord_merges (st : AsyncStorage) (id0 : string)
    (updates : Updates.t) (now : Z) (i : nat) (r : VinylRecord) :
  list_find (λ r, id r = id0) (collection st) = Some (i, r) →
  setItem_rejects st = false →
  (∃ r' st',
    api.updateRecord id0 updates now st = (Returns r', st')
    ∧ merges (artistName r) (Partial.artistName (Updates.fields updates)) (artistName r')
    ∧ merges (albumName r) (Partial.albumName (Updates.fields updates)) (albumName r')
    ∧ merges (serialNumber r) (Partial.serialNumber (Updates.fields updates)) (serialNumber r')
    ∧ merges (matrixRunout r) (Partial.matrixRunout (Updates.fields updates)) (matrixRunout r')
    ∧ merges (year r) (Partial.year (Updates.fields updates)) (year r')
    ∧ merges (country r) (Partial.country (Updates.fields updates)) (country r')
    ∧ merges (genre r) (Partial.genre (Updates.fields updates)) (genre r')
    ∧ merges (style r) (Partial.style (Updates.fields updates)) (style r')
    ∧ merges (label r) (Partial.label (Updates.fields updates)) (label r')
    ∧ merges (format r) (Partial.format (Updates.fields updates)) (format r')
    ∧ merges (discogsId r) (Partial.discogsId (Updates.fields updates)) (discogsId r')
    ∧ merges (discogsUrl r) (Partial.discogsUrl (Updates.fields updates)) (discogsUrl r')
    ∧ merges (id r) (Updates.id updates) (id r')
    ∧ merges (imageUrl r) (Updates.imageUrl updates) (imageUrl r')
    ∧ merges (createdAt r) (Updates.createdAt updates) (createdAt r')
    ∧ updatedAt r' = now
    ∧ (updatedAt r ≤ now → updatedAt r ≤ updatedAt r')
    ∧ (updatedAt r < updatedAt r' ↔ updatedAt r < now))
  ∧ (∀ st0 id1, id1 ∉ id <$> collection st0 →
       api.updateRecord id1 updates now st0 = (Throws NotFoundError, st0)).
Proof.
  intros Hfind Hw. split.
  - exists (api.merged r updates now),
           (written st (<[i := api.merged r updates now]> (collection st))).
    split; [by apply updateRecord_found|].
    repeat (split; [apply merges_default|]).
    simpl. split_and!; done.
  - intros st0 id1 Habsent. apply updateRecord_missing.
    by apply find_none_absent.
Qed.

Lemma updateRecord_merges_witness :
  (∃ r' st',
    api.updateRecord "record_1_aaa" year_1999 5 shelf_of_two = (Returns r', st')
    ∧ artistName r' = Some "A"
    ∧ year r' = Some 1999
    ∧ id r' = "record_1_aaa"
    ∧ imageUrl r' = None
    ∧ createdAt r' = 1
    ∧ updatedAt r' = 5
    ∧ api.updateRecord "record_9_zzz" year_1999 5 shelf_of_two
      = (Throws NotFoundError, shelf_of_two))
  ∧ (∃ r' st',
    api.updateRecord "record_1_aaa" blanked_artist 5 shelf_of_two = (Returns r', st')
    ∧ artistName r' = None
    ∧ albumName r' = Some "One"
    ∧ id r' = "record_1_aaa")
  ∧ (∃ r' st',
    api.updateRecord "record_1_aaa" (Updates.of_record reissue) 5 shelf_of_two
    = (Returns r', st')
    ∧ artistName r' = Some "C"
    ∧ id r' = "record_7_ccc"
    ∧ imageUrl r' = Some "file:///three.jpg"
    ∧ createdAt r' = 7
    ∧ updatedAt r' = 5).
Proof.
  split_and!.
  - destruct (updateRecord_merges shelf_of_two "record_1_aaa" year_1999 5 0
                record_one eq_refl eq_refl)
      as [(r' & st' & Hu & Ha & _ & _ & _ & Hy & _ & _ & _ & _ & _ & _ & _
           & Hid & Him & Hc & Ht & _) Hmissing].
    exists r', st'. split_and!; [done..|].
    apply Hmissing. simpl.
    rewrite !not_elem_of_cons. split_and!; [done..|apply not_elem_of_nil].
  - destruct (updateRecord_merges shelf_of_two "record_1_aaa" blanked_artist 5 0
                record_one eq_refl eq_refl)
      as [(r' & st' & Hu & Ha & Hb & _ & _ & _ & _ & _ & _ & _ & _ & _ & _
           & Hid & _) _].
    by exists r', st'.
  - destruct (updateRecord_merges shelf_of_two "record_1_aaa"
                (Updates.of_record reissue) 5 0 record_one eq_refl eq_refl)
      as [(r' & st' & Hu & Ha & _ & _ & _ & _ & _ & _ & _ & _ & _ & _ & _
           & Hid & Him & Hc & Ht & _) _].
    by exists r', st'.
Defined.

(** C2 as stated fails: an update in the very millisecond of the record's
    last write, which a clock that never goes back allows, leaves
    [updatedAt] equal to its former value, not greater. *)
Lemma updateRecord_same_tick :
  ∃ r r' st',
    api.getRecord "record_1_aaa" shelf_of_two = (Returns r, shelf_of_two)
    ∧ updatedAt r ≤ 1
    ∧ api.updateRecord "record_1_aaa" year_1999 1 shelf_of_two = (Returns r', st')
    ∧ ¬ (updatedAt r < updatedAt r').
Proof.
  eexists _, _, _. split_and!.
  - by vm_compute.
  - by vm_compute.
  - by vm_compute.
  - by vm_compute.
Qed.

Lemma find_some_serves_reads st id0 i r :
  list_find (λ r, id r = id0) (collection st) = Some (i, r) →
  getItem_rejects st = false.
Proof.
  destruct (getItem_rejects st) eqn:Hr; [|done].
  by rewrite collection_rejecting.
Qed.

(** C10, as amended.  Let [r] be the record found under [id0], at
    position [i].  On a device that accepts the write, the record
    [updateRecord] returns has the [id], the [createdAt] and the
    [imageUrl] of [r], each unless the updates carry a property of that
    name, whose value it then takes; it stands at position [i] of the
    collection, which keeps its length, and every other position holds
    the record it held before. *)
Theorem updateRecord_frame (st : AsyncStorage) (id0 : string)
    (updates : Updates.t) (now : Z) (i : nat) (r : VinylRecord) :
  list_find (λ r, id r = id0) (collection st) = Some (i, r) →
  setItem_rejects st = false →
  ∃ r' st',
    api.updateRecord id0 updates now st = (Returns r', st')
    ∧ (Updates.id updates = None → id r' = id r)
    ∧ (Updates.createdAt updates = None → createdAt r' = createdAt r)
    ∧ (Updates.imageUrl updates = None → imageUrl r' = imageUrl r)
    ∧ (∀ v, Updates.id updates = Some v → id r' = v)
    ∧ (∀ v, Updates.createdAt updates = Some v → createdAt r' = v)
    ∧ (∀ v, Updates.imageUrl updates = Some v → imageUrl r' = v)
    ∧ length (collection st') = length (collection st)
    ∧ collection st' !! i = Some r'
    ∧ (∀ j, j ≠ i → collection st' !! j = collection st !! j).
Proof.
  intros Hfind Hw.
  pose proof (find_some_serves_reads _ _ _ _ Hfind) as Hr.
  exists (api.merged r updates now),
         (written st (<[i := api.merged r updates now]> (collection st))).
  rewrite collection_written by done.
  pose proof (proj1 (list_find_Some _ _ _ _) Hfind) as (Hi & _ & _).
  split_and!.
  - by apply updateRecord_found.
  - intros Hnone. simpl. by rewrite Hnone.
  - intros Hnone. simpl. by rewrite Hnone.
  - intros Hnone. simpl. by rewrite Hnone.
  - intros v Hsome. simpl. by rewrite Hsome.
  - intros v Hsome. simpl. by rewrite Hsome.
  - intros v Hsome. simpl. by rewrite Hsome.
  - apply length_insert.
  - apply list_lookup_insert_eq. by eapply lookup_lt_Some.
  - intros j Hj. by apply list_lookup_insert_ne.
Qed.

Lemma updateRecord_frame_witness :
  ∃ r' st',
    api.updateRecord "record_2_bbb" year_1999 9 shelf_of_two = (Returns r', st')
    ∧ id r' = "record_2_bbb"
    ∧ createdAt r' = 2
    ∧ imageUrl r' = None
    ∧ length (collection st') = 2%nat
    ∧ collection st' !! 1%nat = Some r'
    ∧ collection st' !! 0%nat = collection shelf_of_two !! 0%nat.
Proof.
  destruct (updateRecord_frame shelf_of_two "record_2_bbb" year_1999 9 1
              record_two eq_refl eq_refl)
    as (r' & st' & Hu & Hid & Hc & Him & _ & _ & _ & Hlen & Hi & Hothers).
  exists r', st'. split_and!.
  - done.
  - by apply Hid.
  - by apply Hc.
  - by apply Him.
  - done.
  - done.
  - by apply Hothers.
Defined.

(** C10 as stated fails.  The parameter of [updateRecord] is declared
    [Partial<VinylData>], which a [VinylRecord] is assignable to; the
    spread copies every property of the object it is handed.  Updating
    the first record of the shelf with a record of another collection
    changes its [id], its [createdAt] and its [imageUrl], after which no
    record is found under the id the call was made with; updating it with
    the second record of the shelf leaves two records under one id. *)
Lemma updateRecord_takes_carried_identity :
  (∃ r r' st',
    api.getRecord "record_1_aaa" shelf_of_two = (Returns r, shelf_of_two)
    ∧ api.updateRecord "record_1_aaa" (Updates.of_record reissue) 5 shelf_of_two
      = (Returns r', st')
    ∧ id r' ≠ id r
    ∧ createdAt r' ≠ createdAt r
    ∧ imageUrl r' ≠ imageUrl r
    ∧ api.getRecord "record_1_aaa" st' = (Throws NotFoundError, st'))
  ∧ (∃ r' st',
    api.updateRecord "record_1_aaa" (Updates.of_record record_two) 5 shelf_of_two
    = (Returns r', st')
    ∧ id <$> collection st' = ["record_2_bbb"; "record_2_bbb"]).
Proof.
  split.
  - eexists _, _, _. split_and!.
    + by vm_compute.
    + by vm_compute.
    + by vm_compute.
    + by vm_compute.
    + by vm_compute.
    + by vm_compute.
  - eexists _, _. split; by vm_compute.
Qed.

(** ** The errors of [getRecord] and [updateRecord] *)

(** C7, as amended.  For an id that no record has, [getRecord] and
    [updateRecord] raise a plain [Error] whose message is
    ['Record not found'] and leave the device alone.  For an id that some
    record has, [getRecord] does not raise, and [updateRecord] does not
    raise on a device that accepts the write. *)
Theorem not_found_is_a_plain_error (st : AsyncStorage) (id0 : string)
    (updates : Updates.t) (now : Z) :
  (id0 ∉ id <$> collection st →
     api.getRecord id0 st = (Throws (ErrorInstance Error "Record not found"), st)
     ∧ api.updateRecord id0 updates now st
       = (Throws (ErrorInstance Error "Record not found"), st))
  ∧ (id0 ∈ id <$> collection st →
     raises (api.getRecord id0 st).1 = false
     ∧ (setItem_rejects st = false →
        raises (api.updateRecord id0 updates now st).1 = false)).
Proof.
  split.
  - intros Habsent%find_none_absent. split.
    + by apply getRecord_missing.
    + by apply updateRecord_missing.
  - intros (i & r & Hfind)%find_some_present. split.
    + by rewrite (getRecord_found _ _ _ _ Hfind).
    + intros Hw. by rewrite (updateRecord_found _ _ updates now _ _ Hfind Hw).
Qed.

Lemma not_found_is_a_plain_error_witness :
  (api.getRecord "record_9_zzz" shelf_of_two
   = (Throws (ErrorInstance Error "Record not found"), shelf_of_two)
   ∧ api.updateRecord "record_9_zzz" year_1999 9 shelf_of_two
     = (Throws (ErrorInstance Error "Record not found"), shelf_of_two))
  ∧ raises (api.getRecord "record_1_aaa" shelf_of_two).1 = false
  ∧ raises (api.updateRecord "record_1_aaa" year_1999 9 shelf_of_two).1 = false.
Proof.
  split.
  - apply (not_found_is_a_plain_error shelf_of_two "record_9_zzz" year_1999 9).
    simpl. rewrite !not_elem_of_cons. split_and!; [done..|apply not_elem_of_nil].
  - destruct (not_found_is_a_plain_error shelf_of_two "record_1_aaa" year_1999 9)
      as [_ Hpresent].
    destruct Hpresent as [Hget Hupdate]; [simpl; left|].
    split; [done|by apply Hupdate].
Defined.

(** C7 as stated fails: the error for an unknown id is an instance of the
    base class [Error], as is the error [updateRecord] raises for a known
    id when the write is rejected; their class does not tell them apart,
    only their message does. *)
Lemma not_found_kind_is_generic :
  ∃ e1 e2,
    api.getRecord "record_9_zzz" shelf_of_two = (Throws e1, shelf_of_two)
    ∧ api.updateRecord "record_1_aaa" year_1999 9 shelf_read_only
      = (Throws e2, shelf_read_only)
    ∧ e1 ≠ e2
    ∧ error_class e1 = Some Error
    ∧ error_class e2 = Some Error.
Proof.
  eexists _, _. split_and!; [by vm_compute|by vm_compute|discriminate|done|done].
Qed.

(** ** Identifiers *)

Lemma pretty_N_go_free_of_underscore (x : N) (s : string) :
  free_of "_" s → free_of "_" (pretty_N_go x s).
Proof.
  revert s. induction (N.lt_wf_0 x) as [x _ IH]; intros s Hs.
  assert (x = 0 ∨ 0 < x)%N as [->|Hpos] by lia.
  - by rewrite pretty_N_go_0.
  - rewrite pretty_N_go_step by done. apply IH.
    + by apply N.div_lt.
    + simpl. split; [|done].
      unfold pretty_N_char. by repeat case_match.
Qed.

Lemma pretty_N_free_of_underscore (x : N) : free_of "_" (pretty x).
Proof.
  unfold pretty, pretty_N. case_decide.
  - simpl. split; done.
  - by apply pretty_N_go_free_of_underscore.
Qed.

Lemma pretty_Z_free_of_underscore (z : Z) : free_of "_" (pretty z).
Proof.
  destruct z as [|p|p]; unfold pretty, pretty_Z.
  - simpl. split; done.
  - apply pretty_N_free_of_underscore.
  - simpl. split; [done|]. apply pretty_N_free_of_underscore.
Qed.

(** Two texts cut at their first [c] are equal part by part. *)
Lemma append_at_separator (c : ascii) (a b x y : string) :
  free_of c a → free_of c b →
  a +:+ String c x = b +:+ String c y → a = b ∧ x = y.
Proof.
  revert b. induction a as [|a0 a IH]; intros [|b0 b]; simpl.
  - intros _ _ [= ->]. done.
  - intros _ [Hb _] [= -> _]. done.
  - intros [Ha _] _ [= -> _]. done.
  - intros [_ Ha] [_ Hb] [= -> Heq].
    destruct (IH b Ha Hb Heq) as [-> ->]. done.
Qed.

(** The id is the time and the random suffix, and nothing else. *)
Lemma newRecord_id_inj x1 x2 now1 now2 rnd1 rnd2 :
  id (api.newRecord x1 now1 rnd1) = id (api.newRecord x2 now2 rnd2) →
  now1 = now2 ∧ rnd1 = rnd2.
Proof.
  simpl. intros [= Heq].
  apply append_at_separator in Heq as [Hnow ->];
    [|apply pretty_Z_free_of_underscore..].
  split; [|done]. by apply (inj pretty).
Qed.

Global Instance id_of_draw_inj : Inj (=) (=) id_of_draw.
Proof.
  intros [n1 r1] [n2 r2] Heq.
  destruct (newRecord_id_inj
              {| Input.fields := Partial.empty; Input.imageUrl := None |}
              {| Input.fields := Partial.empty; Input.imageUrl := None |}
              n1 n2 r1 r2 Heq) as [-> ->].
  done.
Qed.

Lemma create_in_succession_accepted calls st :
  setItem_rejects st = false →
  ∃ st',
    create_in_succession calls st
    = (Returns ((λ c, api.newRecord c.1.1 c.1.2 c.2) <$> calls), st')
    ∧ setItem_rejects st' = false.
Proof.
  revert st. induction calls as [|[[x now] rnd] calls IH]; intros st Hw.
  - by exists st.
  - simpl. unfold await at 1. rewrite createRecord_accepted by done.
    destruct (IH (written st (collection st ++ [api.newRecord x now rnd])) Hw)
      as (st' & Hrest & Hw').
    exists st'. unfold await. by rewrite Hrest.
Qed.

(** C3, as amended.  On a device that accepts the writes, creations in
    succession return one record per call, and the ids of these records are
    pairwise distinct exactly when the pairs of time and random suffix
    drawn by the calls are: two creations in the same millisecond get
    distinct ids if and only if their random suffixes differ. *)
Theorem ids_distinct_iff_draws_distinct
    (calls : list (Input.t * Z * string)) (st : AsyncStorage) :
  setItem_rejects st = false →
  ∃ created st',
    create_in_succession calls st = (Returns created, st')
    ∧ length created = length calls
    ∧ (NoDup (id <$> created) ↔ NoDup (draw <$> calls)).
Proof.
  intros Hw.
  destruct (create_in_succession_accepted calls st Hw) as (st' & Hrun & _).
  eexists _, st'. split; [exact Hrun|]. split.
  - by rewrite length_fmap.
  - rewrite <- (NoDup_fmap id_of_draw (draw <$> calls)).
    rewrite <- !list_fmap_compose.
    erewrite (list_fmap_ext _ (id_of_draw ∘ draw)); [done|].
    by intros i [[x now] rnd] _.
Qed.

Lemma ids_distinct_iff_draws_distinct_witness :
  ∃ created st',
    create_in_succession
      [(kind_of_blue, 1700000000000, "k3x9q0z1a");
       (kind_of_blue, 1700000000000, "9qz41bb0c");
       (kind_of_blue, 1700000000001, "k3x9q0z1a")]
      blank = (Returns created, st')
    ∧ length created = 3%nat
    ∧ NoDup (id <$> created).
Proof.
  destruct (ids_distinct_iff_draws_distinct
              [(kind_of_blue, 1700000000000, "k3x9q0z1a");
       (kind_of_blue, 1700000000000, "9qz41bb0c");
       (kind_of_blue, 1700000000001, "k3x9q0z1a")]
              blank eq_refl)
    as (created & st' & Hrun & Hlen & Hiff).
  exists created, st'. split_and!; [done..|].
  apply Hiff. simpl. unfold draw; simpl.
  repeat (apply NoDup_cons; split;
          [rewrite ?not_elem_of_cons; split_and?; try discriminate; apply not_elem_of_nil|]).
  apply NoDup_nil_2.
Defined.

(** C3 as stated fails: two creations in the same millisecond that draw the
    same random suffix return records with one and the same id. *)
Lemma same_tick_same_draw_same_id :
  ∃ r1 r2 st',
    create_in_succession
      [(kind_of_blue, 1700000000000, "k3x9q0z1a");
       (kind_of_blue, 1700000000000, "k3x9q0z1a")] blank
    = (Returns [r1; r2], st')
    ∧ id r1 = id r2.
Proof.
  eexists _, _, _. split; by vm_compute.
Qed.

(** ** The Discogs client *)

Lemma perform_request this call :
  DiscogsAPI.perform this call
  = DiscogsAPI.request this (DiscogsAPI.target call).1 (DiscogsAPI.target call).2.
Proof. by destruct call. Qed.

Lemma request_unconfigured this endpoint params net :
  DiscogsAPI.isConfigured this = false →
  DiscogsAPI.request this endpoint params net = (Throws ConfigurationError, net).
Proof. intros Hc. unfold DiscogsAPI.request. by rewrite Hc. Qed.

Lemma unset_token_not_configured this :
  DiscogsAPI.token this = None → DiscogsAPI.isConfigured this = false.
Proof. intros Ht. unfold DiscogsAPI.isConfigured. by rewrite Ht. Qed.

(** C4.  A client that is not configured, as one whose token is unset is,
    fails every operation with the configuration error, and the network is
    as it was: nothing was handed to [fetch]. *)
Theorem unconfigured_calls_fail_before_io
    (this : DiscogsAPI.t) (call : DiscogsAPI.Call) (net : Network) :
  DiscogsAPI.isConfigured this = false →
  ∃ net',
    DiscogsAPI.perform this call net = (Throws ConfigurationError, net')
    ∧ net' = net
    ∧ issued net' = issued net.
Proof.
  intros Hc. exists net. rewrite perform_request.
  by rewrite request_unconfigured.
Qed.

Lemma unconfigured_calls_fail_before_io_witness :
  DiscogsAPI.token (DiscogsAPI.new None) = None
  ∧ ∃ net',
      DiscogsAPI.perform (DiscogsAPI.new None) (DiscogsAPI.GetRelease 249504) all_not_found
      = (Throws ConfigurationError, net')
      ∧ net' = all_not_found
      ∧ issued net' = [].
Proof.
  split; [reflexivity|].
  apply (unconfigured_calls_fail_before_io (DiscogsAPI.new None)
           (DiscogsAPI.GetRelease 249504) all_not_found).
  reflexivity.
Defined.

Lemma request_fetch_rejected this endpoint params net t :
  DiscogsAPI.isConfigured this = true →
  answer net (DiscogsAPI.outgoing this endpoint params) = Throws t →
  DiscogsAPI.request this endpoint params net
  = (Throws (if instanceof_Error t then t else FetchFailedError),
     sent net (DiscogsAPI.outgoing this endpoint params)).
Proof.
  intros Hc Ha. unfold DiscogsAPI.request, try_catch, await, fetch.
  rewrite Hc. cbn beta iota delta [negb]. rewrite Ha.
  by destruct (instanceof_Error t).
Qed.

Lemma request_not_ok this endpoint params net response :
  DiscogsAPI.isConfigured this = true →
  answer net (DiscogsAPI.outgoing this endpoint params) = Returns response →
  ok response = false →
  DiscogsAPI.request this endpoint params net
  = (match body_json response with
     | Throws _ =>
         Throws (ErrorInstance Error (DiscogsAPI.status_message response None))
     | Returns JNull =>
         Throws (ErrorInstance TypeError "Cannot read property 'message' of null")
     | Returns value =>
         Throws (ErrorInstance Error
                   (DiscogsAPI.status_message response (message_of value)))
     end,
     sent net (DiscogsAPI.outgoing this endpoint params)).
Proof.
  intros Hc Ha Hok.
  unfold DiscogsAPI.request, try_catch, await, fetch, catch, try_catch,
    response_json, complete, resolve, throw.
  rewrite Hc. cbn beta iota delta [negb]. rewrite Ha, Hok. simpl.
  destruct (body_json response) as [[]|]; done.
Qed.

Lemma request_ok this endpoint params net response :
  DiscogsAPI.isConfigured this = true →
  answer net (DiscogsAPI.outgoing this endpoint params) = Returns response →
  ok response = true →
  DiscogsAPI.request this endpoint params net
  = (match body_json response with
     | Returns value => Returns value
     | Throws t => Throws (if instanceof_Error t then t else FetchFailedError)
     end,
     sent net (DiscogsAPI.outgoing this endpoint params)).
Proof.
  intros Hc Ha Hok.
  unfold DiscogsAPI.request, try_catch, await, fetch, response_json, complete, throw.
  rewrite Hc. cbn beta iota delta [negb]. rewrite Ha, Hok. simpl.
  destruct (body_json response) as [|t]; [done|].
  by destruct (instanceof_Error t).
Qed.

(** C5, as amended.  Let a configured client make a call.  When the
    response is not [ok]: if its body does not parse as JSON, the call
    raises an [Error] whose message gives the status code, the status text
    and an empty server message; if the body parses to a value other than
    [null], the message ends with the text of that value's truthy
    [message] member, and with nothing when there is none; in particular a
    [message] that is a string is carried as it is.  When [fetch] rejects
    with an [Error] object the call raises that very object, and when it
    rejects with something else the call raises the generic fetch error.
    In all these cases, the [null] body included, and whenever the body of
    a response does not parse, the call raises: no data is returned. *)
Theorem lookup_failures_raise
    (this : DiscogsAPI.t) (call : DiscogsAPI.Call) (net : Network) :
  DiscogsAPI.isConfigured this = true →
  let request :=
    DiscogsAPI.outgoing this (DiscogsAPI.target call).1 (DiscogsAPI.target call).2 in
  (∀ response, answer net request = Returns response → ok response = false →
     (∀ t, body_json response = Throws t →
        DiscogsAPI.perform this call net
        = (Throws (ErrorInstance Error
             ("Discogs API error: " +:+ pretty (status response) +:+ " "
                +:+ statusText response +:+ ". " +:+ "")),
           sent net request))
     ∧ (∀ value, body_json response = Returns value → value ≠ JNull →
        DiscogsAPI.perform this call net
        = (Throws (ErrorInstance Error
             ("Discogs API error: " +:+ pretty (status response) +:+ " "
                +:+ statusText response +:+ ". "
                +:+ message_or_empty (message_of value))),
           sent net request))
     ∧ (∀ members text, body_json response = Returns (JObject members) →
        member "message" members = Some (JString text) →
        DiscogsAPI.perform this call net
        = (Throws (ErrorInstance Error
             ("Discogs API error: " +:+ pretty (status response) +:+ " "
                +:+ statusText response +:+ ". " +:+ text)),
           sent net request)))
  ∧ (∀ t, answer net request = Throws t →
     DiscogsAPI.perform this call net
     = (Throws (if instanceof_Error t then t else FetchFailedError),
        sent net request))
  ∧ ((∃ t, answer net request = Throws t)
     ∨ (∃ response, answer net request = Returns response ∧ ok response = false)
     ∨ (∃ response t, answer net request = Returns response
                      ∧ body_json response = Throws t) →
     raises (DiscogsAPI.perform this call net).1 = true).
Proof.
  intros Hc request. rewrite perform_request. split_and!.
  - intros response Ha Hok. rewrite (request_not_ok _ _ _ _ _ Hc Ha Hok).
    split_and!.
    + intros t ->. done.
    + intros value -> Hnull. by destruct value.
    + intros members text -> Hm. unfold DiscogsAPI.status_message. simpl.
      rewrite Hm. unfold message_or_empty, truthy_value, truthy.
      case_bool_decide; by subst.
  - intros t Ha. by apply request_fetch_rejected.
  - intros [[t Ha]|[(response & Ha & Hok)|(response & t & Ha & Hbody)]].
    + by rewrite (request_fetch_rejected _ _ _ _ _ Hc Ha).
    + rewrite (request_not_ok _ _ _ _ _ Hc Ha Hok). simpl.
      by destruct (body_json response) as [[]|].
    + destruct (ok response) eqn:Hok.
      * rewrite (request_ok _ _ _ _ _ Hc Ha Hok), Hbody. done.
      * rewrite (request_not_ok _ _ _ _ _ Hc Ha Hok), Hbody. done.
Qed.

Lemma lookup_failures_raise_witness :
  DiscogsAPI.isConfigured with_token = true
  ∧ (DiscogsAPI.perform with_token (DiscogsAPI.GetRelease 249504) all_not_found).1
    = Throws (ErrorInstance Error
                "Discogs API error: 404 Not Found. Release not found.").
Proof.
  split; [reflexivity|].
  destruct (lookup_failures_raise with_token (DiscogsAPI.GetRelease 249504)
              all_not_found eq_refl) as [Hstatus _].
  destruct (Hstatus _ eq_refl eq_refl) as (_ & _ & Hmessage).
  by rewrite (Hmessage _ "Release not found." eq_refl eq_refl).
Defined.

(** C5 as stated fails: when [fetch] rejects, as it does on a network
    failure, with an [Error] object, the call raises that object and not
    the generic fetch error. *)
Lemma network_failure_is_rethrown :
  ∃ t net',
    DiscogsAPI.perform with_token (DiscogsAPI.GetRelease 249504) offline
    = (Throws t, net')
    ∧ t = ErrorInstance TypeError "Network request failed"
    ∧ t ≠ FetchFailedError.
Proof.
  eexists _, _. split_and!; [by vm_compute|done|discriminate].
Qed.

(** A response that is not [ok] and whose body is the JSON text [null]
    makes the call raise the [TypeError] of reading [message] of [null];
    the status does not reach the caller. *)
Example null_error_body_raises_TypeError :
  (DiscogsAPI.perform with_token (DiscogsAPI.GetRelease 249504)
     {| answer := λ _, Returns {| ok := false; status := 500;
                                  statusText := "Internal Server Error";
                                  body_json := Returns JNull |};
        issued := [] |}).1
  = Throws (ErrorInstance TypeError "Cannot read property 'message' of null").
Proof. by vm_compute. Qed.

(** ** The glue: from a release to a record *)

(** The first entry that satisfies [P] is the head of those that do. *)
Lemma list_find_head_filter {A} (P : A → Prop) `{!∀ x, Decision (P x)} (l : list A) :
  snd <$> list_find P l = head (filter P l).
Proof.
  induction l as [|x l IH]; [done|]. simpl.
  destruct (decide (P x)) as [HP|HP].
  - by rewrite filter_cons_True.
  - rewrite filter_cons_False by done. rewrite <- IH.
    by destruct (list_find P l) as [[]|].
Qed.

Lemma or_empty_twice (x : option string) :
  or_empty (Some (or_empty x)) = default "" x.
Proof.
  by rewrite !or_empty_default.
Qed.

Lemma or_else_null_twice (x y : option string) :
  or_else (or_else x (or_else y None)) None = or_else x (or_else y None).
Proof.
  unfold or_else. destruct x as [a|], y as [b|]; repeat case_match; congruence.
Qed.

Lemma handleSelectRelease_accepted release now rnd s :
  setItem_rejects (App.storage s) = false →
  App.handleSelectRelease release now rnd s
  = (Returns tt, added s (api.newRecord (App.recordInput release) now rnd)).
Proof.
  intros Hw.
  unfold App.handleSelectRelease, App.try_finally, try_catch, await, App.on_storage.
  simpl. rewrite createRecord_accepted by done. simpl.
  unfold App.loadRecords, App.try_finally, try_catch, await, App.on_storage,
    api.getRecords.
  simpl. rewrite getStoredRecords_collection. done.
Qed.

(** C9.  The record that [handleSelectRelease] has [createRecord] build
    from a release takes its artist name from the first artist, its album
    name from the title, its serial number from the catalog number of the
    first label and its matrix code from the first identifier of type
    ["Matrix / Runout"], each the empty string when there is none; year,
    country, genres, styles, the name of the first label, the name of the
    first format, the release id and the URI are passed on; the cover is
    the first image's [uri], its [uri150] when that is empty, and not set
    when both are or when there is no image.  On a device that accepts the
    write, this record is appended to the collection. *)
Theorem handleSelectRelease_mapping
    (release : Release.t) (now : Z) (rnd : string) (s : App.State) :
  setItem_rejects (App.storage s) = false →
  let r := api.newRecord (App.recordInput release) now rnd in
  artistName r = Some (default "" (Artist.name <$> first (Release.artists release)))
  ∧ albumName r = Some (Release.title release)
  ∧ serialNumber r = Some (default "" (Label.catno <$> first (Release.labels release)))
  ∧ matrixRunout r
    = Some (default "" (Identifier.value <$>
        head (filter (λ i, Identifier.type i = "Matrix / Runout")
                (default [] (Release.identifiers release)))))
  ∧ year r = Release.year release
  ∧ country r = Release.country release
  ∧ genre r = Release.genres release
  ∧ style r = Release.styles release
  ∧ label r = Label.name <$> first (Release.labels release)
  ∧ format r = Format.name <$> first (Release.formats release)
  ∧ discogsId r = Some (Release.id release)
  ∧ discogsUrl r = Release.uri release
  ∧ Input.imageUrl (App.recordInput release)
    = match first (Release.images release) with
      | Some image =>
          if bool_decide (Image.uri image = "")
          then if bool_decide (Image.uri150 image = "") then None
               else Some (Image.uri150 image)
          else Some (Image.uri image)
      | None => None
      end
  ∧ imageUrl r = Input.imageUrl (App.recordInput release)
  ∧ ∃ s',
      App.handleSelectRelease release now rnd s = (Returns tt, s')
      ∧ collection (App.storage s') = App.records s'
      ∧ (getItem_rejects (App.storage s) = false →
         App.records s' = collection (App.storage s) ++ [r]).
Proof.
  intros Hw r. subst r. split_and!; try reflexivity.
  - apply (f_equal Some), or_empty_twice.
  - exact (f_equal Some (or_empty_twice (Some (Release.title release)))).
  - apply (f_equal Some), or_empty_twice.
  - apply (f_equal Some). etrans; [apply or_empty_twice|]. do 2 f_equal.
    destruct (Release.identifiers release) as [identifiers|]; simpl.
    + apply list_find_head_filter.
    + done.
  - unfold App.recordInput, Input.imageUrl, App.coverImageUrl.
    destruct (first (Release.images release)) as [image|]; simpl; [|done].
    unfold or_else, truthy. by repeat case_bool_decide.
  - apply or_else_null_twice.
  - exists (added s (api.newRecord (App.recordInput release) now rnd)).
    split; [by apply handleSelectRelease_accepted|]. split; [done|].
    intros Hr. simpl. by rewrite collection_written.
Qed.

Lemma handleSelectRelease_mapping_witness :
  let r := api.newRecord (App.recordInput kind_of_blue_release) 1700000000000 "k3x9q0z1a" in
  artistName r = Some "Miles Davis"
  ∧ albumName r = Some "Miles Davis - Kind of Blue"
  ∧ serialNumber r = Some "CL 1355"
  ∧ matrixRunout r = Some "XLP 47324-1A"
  ∧ label r = Some "Columbia"
  ∧ discogsId r = Some 249504
  ∧ imageUrl r = Some "https://img.example/kob-150.jpg"
  ∧ ∃ s',
      App.handleSelectRelease kind_of_blue_release 1700000000000 "k3x9q0z1a" fresh_app
      = (Returns tt, s')
      ∧ App.records s' = [r].
Proof.
  destruct (handleSelectRelease_mapping kind_of_blue_release 1700000000000
              "k3x9q0z1a" fresh_app eq_refl)
    as (Ha & Hb & Hs & Hm & _ & _ & _ & _ & Hl & _ & Hd & _ & Hi & Hr & s' & Hrun & _ & Hrec).
  cbv zeta. split_and!.
  - by rewrite Ha.
  - by rewrite Hb.
  - by rewrite Hs.
  - by rewrite Hm.
  - by rewrite Hl.
  - by rewrite Hd.
  - by rewrite Hr, Hi.
  - exists s'. split; [done|]. by rewrite Hrec.
Defined.

(** * Further properties of the store *)

Lemma NoDup_fmap_filter {A B} (f : A → B) (P : A → Prop) `{!∀ x, Decision (P x)}
    (l : list A) :
  NoDup (f <$> l) → NoDup (f <$> filter P l).
Proof.
  induction l as [|x l IH]; [done|].
  rewrite fmap_cons. intros [Hx Hl]%NoDup_cons.
  destruct (decide (P x)).
  - rewrite filter_cons_True by done. rewrite fmap_cons.
    apply NoDup_cons. split; [|by apply IH].
    intros (y & Hy & Hin)%list_elem_of_fmap.
    apply list_elem_of_filter in Hin as [_ Hin].
    apply Hx. rewrite Hy. by apply list_elem_of_fmap_2.
  - rewrite filter_cons_False by done. by apply IH.
Qed.

Lemma filter_other_ids_appended (records : list VinylRecord) (r : VinylRecord) :
  id r ∉ id <$> records →
  filter (λ r', id r' ≠ id r) (records ++ [r]) = records.
Proof.
  intros Hfresh. rewrite filter_app.
  rewrite (filter_singleton_False _ r []) by (intros Hne; by apply Hne).
  rewrite app_nil_r. apply filter_keeps_all.
  intros r' Hr' Heq. apply Hfresh. rewrite <- Heq. by apply list_elem_of_fmap_2.
Qed.

Lemma collection_written_any st records :
  collection (written st records) = if getItem_rejects st then [] else records.
Proof. unfold collection, written; simpl. by destruct (getItem_rejects st). Qed.

(** X1.  On a device that rejects writes, [createRecord], [deleteRecord]
    and [updateRecord] of an id that some record has all raise the error
    ['Failed to save data'], [updateRecord] of an id that no record has
    raises the not-found error, and none of them changes the device. *)
Theorem rejected_write_changes_nothing (st : AsyncStorage) :
  setItem_rejects st = true →
  (∀ x now rnd,
     api.createRecord x now rnd st
     = (Throws (ErrorInstance Error "Failed to save data"), st))
  ∧ (∀ id0,
     api.deleteRecord id0 st
     = (Throws (ErrorInstance Error "Failed to save data"), st))
  ∧ (∀ id0 updates now, id0 ∈ id <$> collection st →
     api.updateRecord id0 updates now st
     = (Throws (ErrorInstance Error "Failed to save data"), st))
  ∧ (∀ id0 updates now, id0 ∉ id <$> collection st →
     api.updateRecord id0 updates now st
     = (Throws (ErrorInstance Error "Record not found"), st)).
Proof.
  intros Hw. split_and!.
  - intros. by apply createRecord_rejected.
  - intros. by apply deleteRecord_rejected.
  - intros id0 updates now (i & r & Hfind)%find_some_present.
    by eapply updateRecord_found_rejected.
  - intros id0 updates now Habsent%find_none_absent.
    by apply updateRecord_missing.
Qed.

Lemma rejected_write_changes_nothing_witness :
  api.createRecord kind_of_blue 1700000000000 "k3x9q0z1a" shelf_read_only
  = (Throws (ErrorInstance Error "Failed to save data"), shelf_read_only)
  ∧ api.deleteRecord "record_1_aaa" shelf_read_only
    = (Throws (ErrorInstance Error "Failed to save data"), shelf_read_only).
Proof.
  destruct (rejected_write_changes_nothing shelf_read_only eq_refl)
    as (Hcreate & Hdelete & _).
  split; [apply Hcreate|apply Hdelete].
Defined.

(** X2.  A record that [getRecord] returns is a record of the collection
    with the id asked for, and the first such; the device is left as it
    was. *)
Theorem getRecord_returns_first_match
    (st st' : AsyncStorage) (id0 : string) (r : VinylRecord) :
  api.getRecord id0 st = (Returns r, st') →
  st' = st
  ∧ id r = id0
  ∧ ∃ i : nat,
      collection st !! i = Some r
      ∧ ∀ (j : nat) r', collection st !! j = Some r' → (j < i)%nat → id r' ≠ id0.
Proof.
  unfold api.getRecord. read_store.
  destruct (list_find _ (collection st)) as [[i r0]|] eqn:Hfind; [|done].
  intros [= <- <-].
  apply list_find_Some in Hfind as (Hi & Hid & Hfirst). eauto.
Qed.

Lemma getRecord_returns_first_match_witness :
  ∃ r, api.getRecord "record_2_bbb" shelf_of_two = (Returns r, shelf_of_two)
       ∧ id r = "record_2_bbb"
       ∧ ∃ i : nat, collection shelf_of_two !! i = Some r.
Proof.
  eexists. split; [reflexivity|].
  destruct (getRecord_returns_first_match shelf_of_two shelf_of_two "record_2_bbb" _
              eq_refl) as (_ & Hid & i & Hi & _).
  split; [exact Hid|]. by exists i.
Defined.

(** X3.  After an [updateRecord] that the device accepts and whose
    updates carry no [id], or the id the call is made with, [getRecord]
    of the same id returns the record that [updateRecord] returned. *)
Theorem update_then_get (st : AsyncStorage) (id0 : string)
    (updates : Updates.t) (now : Z) :
  id0 ∈ id <$> collection st →
  setItem_rejects st = false →
  Updates.id updates = None ∨ Updates.id updates = Some id0 →
  ∃ r' st',
    api.updateRecord id0 updates now st = (Returns r', st')
    ∧ api.getRecord id0 st' = (Returns r', st').
Proof.
  intros (i & r & Hfind)%find_some_present Hw Hcarried.
  pose proof (find_some_serves_reads _ _ _ _ Hfind) as Hr.
  eexists _, _. split; [by eapply updateRecord_found|].
  eapply (getRecord_found _ _ i). rewrite collection_written by done.
  apply list_find_Some in Hfind as (Hi & Hid & Hfirst).
  apply list_find_Some. split_and!.
  - apply list_lookup_insert_eq. by eapply lookup_lt_Some.
  - simpl. by destruct Hcarried as [-> | ->].
  - intros j y Hj Hlt. rewrite list_lookup_insert_ne in Hj by lia. by eapply Hfirst.
Qed.

Lemma update_then_get_witness :
  (∃ r' st',
    api.updateRecord "record_2_bbb" year_1999 9 shelf_of_two = (Returns r', st')
    ∧ api.getRecord "record_2_bbb" st' = (Returns r', st'))
  ∧ (∃ r' st',
    api.updateRecord "record_1_aaa" blanked_artist 9 shelf_of_two = (Returns r', st')
    ∧ api.getRecord "record_1_aaa" st' = (Returns r', st')).
Proof.
  split.
  - apply (update_then_get shelf_of_two "record_2_bbb" year_1999 9);
      [|reflexivity|by left].
    simpl. right. left.
  - apply (update_then_get shelf_of_two "record_1_aaa" blanked_artist 9);
      [|reflexivity|by right].
    simpl. left.
Defined.

(** X4.  After a [deleteRecord] that the device accepts, [getRecord] and
    [updateRecord] of the deleted id raise the not-found error. *)
Theorem delete_then_not_found (st : AsyncStorage) (id0 : string)
    (updates : Updates.t) (now : Z) :
  setItem_rejects st = false →
  ∃ st',
    api.deleteRecord id0 st = (Returns tt, st')
    ∧ api.getRecord id0 st' = (Throws NotFoundError, st')
    ∧ api.updateRecord id0 updates now st' = (Throws NotFoundError, st').
Proof.
  intros Hw. eexists. split; [by apply deleteRecord_accepted|].
  assert (id0 ∉ id <$> collection
            (written st (filter (λ r, id r ≠ id0) (collection st)))) as Habsent.
  { rewrite collection_written_any. destruct (getItem_rejects st).
    - apply not_elem_of_nil.
    - intros (r & -> & [Hne _]%list_elem_of_filter)%list_elem_of_fmap. by apply Hne. }
  apply find_none_absent in Habsent. split.
  - by apply getRecord_missing.
  - by apply updateRecord_missing.
Qed.

Lemma delete_then_not_found_witness :
  ∃ st',
    api.deleteRecord "record_1_aaa" shelf_of_two = (Returns tt, st')
    ∧ api.getRecord "record_1_aaa" st' = (Throws NotFoundError, st')
    ∧ api.updateRecord "record_1_aaa" year_1999 9 st' = (Throws NotFoundError, st').
Proof.
  apply (delete_then_not_found shelf_of_two "record_1_aaa" year_1999 9).
  reflexivity.
Defined.

(** X5.  On a device that serves reads and accepts writes, creating a
    record whose id no stored record has and then deleting that id gives
    back the collection as it was. *)
Theorem create_then_delete_restores
    (st : AsyncStorage) (x : Input.t) (now : Z) (rnd : string) :
  getItem_rejects st = false →
  setItem_rejects st = false →
  id (api.newRecord x now rnd) ∉ id <$> collection st →
  ∃ r st1 st2,
    api.createRecord x now rnd st = (Returns r, st1)
    ∧ api.deleteRecord (id r) st1 = (Returns tt, st2)
    ∧ collection st2 = collection st.
Proof.
  intros Hr Hw Hfresh. eexists _, _, _. split_and!.
  - by apply createRecord_accepted.
  - by apply deleteRecord_accepted.
  - rewrite !collection_written by done.
    by apply filter_other_ids_appended.
Qed.

Lemma create_then_delete_restores_witness :
  ∃ r st1 st2,
    api.createRecord kind_of_blue 1700000000000 "k3x9q0z1a" shelf_of_two
    = (Returns r, st1)
    ∧ api.deleteRecord (id r) st1 = (Returns tt, st2)
    ∧ collection st2 = collection shelf_of_two.
Proof.
  apply (create_then_delete_restores shelf_of_two kind_of_blue 1700000000000
           "k3x9q0z1a"); [reflexivity..|].
  simpl. rewrite !not_elem_of_cons. split_and!; [by vm_compute..|apply not_elem_of_nil].
Defined.

(** Writing at a position of a sequence without repetition the entry it
    holds, or one that occurs nowhere in it, leaves it without repetition. *)
Lemma NoDup_insert_fresh {A} (l : list A) (i : nat) (x v : A) :
  NoDup l → l !! i = Some x → v = x ∨ v ∉ l → NoDup (<[i := v]> l).
Proof.
  intros Hnodup Hi [-> | Hfresh]; [by rewrite list_insert_id|].
  clear x Hi. revert i. induction l as [|y l IH]; intros i; [done|].
  apply NoDup_cons in Hnodup as [Hy Hl].
  apply not_elem_of_cons in Hfresh as [Hne Hfresh].
  destruct i as [|i]; simpl.
  - apply NoDup_cons. by split.
  - apply NoDup_cons. split; [|by apply IH].
    intros (j & Hj)%list_elem_of_lookup_1.
    apply list_lookup_insert_Some in Hj as [(_ & Heq & _)|[_ Hj]].
    + by apply Hne.
    + apply Hy. by eapply list_elem_of_lookup_2.
Qed.

(** X6.  If the ids of the stored records are pairwise distinct, they
    still are after an [updateRecord] whose updates carry no [id], or the
    id the call is made with, or one that no stored record has; after
    [deleteRecord]; and after a [createRecord] whose new id no stored
    record has; whether the device accepts the write or not. *)
Theorem unique_ids_preserved (st : AsyncStorage) :
  NoDup (id <$> collection st) →
  (∀ id0 (updates : Updates.t) now,
     (∀ v, Updates.id updates = Some v → v = id0 ∨ v ∉ id <$> collection st) →
     NoDup (id <$> collection (api.updateRecord id0 updates now st).2))
  ∧ (∀ id0, NoDup (id <$> collection (api.deleteRecord id0 st).2))
  ∧ (∀ x now rnd,
     id (api.newRecord x now rnd) ∉ id <$> collection st →
     NoDup (id <$> collection (api.createRecord x now rnd st).2)).
Proof.
  intros Hnodup. split_and!.
  - intros id0 updates now Hcarried.
    destruct (list_find (λ r, id r = id0) (collection st)) as [[i r]|] eqn:Hfind.
    + destruct (setItem_rejects st) eqn:Hw.
      * by rewrite (updateRecord_found_rejected _ _ _ _ _ _ Hfind Hw).
      * rewrite (updateRecord_found _ _ _ _ _ _ Hfind Hw). simpl.
        rewrite collection_written
          by (by eapply find_some_serves_reads).
        apply list_find_Some in Hfind as (Hi & Hid & _).
        rewrite list_fmap_insert.
        apply (NoDup_insert_fresh _ _ (id r)); [done|by rewrite list_lookup_fmap, Hi|].
        simpl. destruct (Updates.id updates) as [v|]; simpl; [|by left].
        destruct (Hcarried v eq_refl) as [-> | Hfresh]; [by left|by right].
    + by rewrite updateRecord_missing.
  - intros id0. destruct (setItem_rejects st) eqn:Hw.
    + by rewrite deleteRecord_rejected.
    + rewrite deleteRecord_accepted by done. simpl.
      rewrite collection_written_any. destruct (getItem_rejects st).
      * apply NoDup_nil_2.
      * by apply NoDup_fmap_filter.
  - intros x now rnd Hfresh. destruct (setItem_rejects st) eqn:Hw.
    + by rewrite createRecord_rejected.
    + rewrite createRecord_accepted by done. simpl.
      rewrite collection_written_any. destruct (getItem_rejects st).
      * apply NoDup_nil_2.
      * rewrite fmap_app. apply NoDup_app. split_and!.
        -- done.
        -- intros i Hi ->%list_elem_of_singleton. by apply Hfresh.
        -- apply NoDup_singleton.
Qed.

Lemma unique_ids_preserved_witness :
  NoDup (id <$> collection (api.updateRecord "record_1_aaa" year_1999 9 shelf_of_two).2)
  ∧ NoDup (id <$> collection
             (api.updateRecord "record_1_aaa" blanked_artist 9 shelf_of_two).2)
  ∧ NoDup (id <$> collection
             (api.updateRecord "record_1_aaa" (Updates.of_record reissue) 9
                shelf_of_two).2)
  ∧ NoDup (id <$> collection (api.deleteRecord "record_1_aaa" shelf_of_two).2).
Proof.
  assert (NoDup (id <$> collection shelf_of_two)) as Hnodup.
  { simpl. apply NoDup_cons. split.
    - rewrite not_elem_of_cons. split; [done|apply not_elem_of_nil].
    - apply NoDup_singleton. }
  destruct (unique_ids_preserved shelf_of_two Hnodup) as (Hupdate & Hdelete & _).
  split_and!.
  - apply Hupdate. intros v Hv. discriminate Hv.
  - apply Hupdate. intros v [= <-]. by left.
  - apply Hupdate. intros v [= <-]. right. simpl.
    rewrite !not_elem_of_cons. split_and!; [done..|apply not_elem_of_nil].
  - apply Hdelete.
Defined.

(** A creation on a device that reads as empty writes the new record
    alone. *)
Lemma createRecord_on_empty_view st x now rnd :
  collection st = [] →
  setItem_rejects st = false →
  api.createRecord x now rnd st
  = (Returns (api.newRecord x now rnd), written st [api.newRecord x now rnd]).
Proof.
  intros Hempty Hw. rewrite createRecord_accepted by done. by rewrite Hempty.
Qed.

(** X7.  When the read is rejected or the stored text does not parse, and
    the device accepts the write, [createRecord] replaces whatever the
    device held by the sequence of the new record alone, and
    [deleteRecord] replaces it by the empty sequence. *)
Theorem failed_read_then_write_overwrites
    (st : AsyncStorage) (x : Input.t) (now : Z) (rnd : string) (id0 : string) :
  getItem_rejects st = true ∨ (∃ text, item st = Some (Garbled text)) →
  setItem_rejects st = false →
  (∃ r st',
     api.createRecord x now rnd st = (Returns r, st')
     ∧ item st' = Some (Json [r]))
  ∧ (∃ st', api.deleteRecord id0 st = (Returns tt, st')
            ∧ item st' = Some (Json [])).
Proof.
  intros Hbad Hw.
  assert (collection st = []) as Hempty.
  { unfold collection. destruct Hbad as [->|[text ->]]; [done|].
    by destruct (getItem_rejects st). }
  split.
  - eexists _, _. split; [by apply createRecord_on_empty_view|done].
  - eexists. split; [by apply deleteRecord_accepted|]. simpl. by rewrite Hempty.
Qed.

Lemma failed_read_then_write_overwrites_witness :
  let st := {| item := item shelf_of_two; getItem_rejects := true;
               setItem_rejects := false |} in
  ∃ r st',
    api.createRecord kind_of_blue 1700000000000 "k3x9q0z1a" st = (Returns r, st')
    ∧ item st' = Some (Json [r]).
Proof.
  cbv zeta.
  destruct (failed_read_then_write_overwrites
              {| item := item shelf_of_two; getItem_rejects := true;
                 setItem_rejects := false |}
              kind_of_blue 1700000000000 "k3x9q0z1a" "record_1_aaa"
              (or_introl eq_refl) eq_refl) as [Hcreate _].
  exact Hcreate.
Defined.

Lemma spread_nothing (d : VinylData) : api.spread d Partial.empty = d.
Proof. by destruct d. Qed.

(** X8.  An [updateRecord] that names no property returns the record it
    found with nothing changed but [updatedAt], which is the time of the
    call. *)
Theorem update_without_fields_touches (st : AsyncStorage) (id0 : string) (now : Z)
    (i : nat) (r : VinylRecord) :
  list_find (λ r, id r = id0) (collection st) = Some (i, r) →
  setItem_rejects st = false →
  ∃ st',
    api.updateRecord id0 Partial.empty now st
    = (Returns {| data := data r; id := id r; imageUrl := imageUrl r;
                  createdAt := createdAt r; updatedAt := now |}, st').
Proof.
  intros Hfind Hw. eexists.
  rewrite (updateRecord_found _ _ _ _ _ _ Hfind Hw).
  unfold api.merged. by rewrite spread_nothing.
Qed.

Lemma update_without_fields_touches_witness :
  ∃ r' st',
    api.updateRecord "record_2_bbb" Partial.empty 9 shelf_of_two = (Returns r', st')
    ∧ year r' = Some 1999 ∧ artistName r' = Some "B" ∧ updatedAt r' = 9.
Proof.
  destruct (update_without_fields_touches shelf_of_two "record_2_bbb" 9 1
              record_two eq_refl eq_refl) as [st' Hupdate].
  eexists _, st'. split; [exact Hupdate|done].
Defined.

(** * Further properties of the Discogs client *)

Lemma request_sends this endpoint params net :
  DiscogsAPI.isConfigured this = true →
  (DiscogsAPI.request this endpoint params net).2
  = sent net (DiscogsAPI.outgoing this endpoint params).
Proof.
  intros Hc.
  destruct (answer net (DiscogsAPI.outgoing this endpoint params))
    as [response|t] eqn:Ha.
  - destruct (ok response) eqn:Hok.
    + by rewrite (request_ok _ _ _ _ _ Hc Ha Hok).
    + by rewrite (request_not_ok _ _ _ _ _ Hc Ha Hok).
  - by rewrite (request_fetch_rejected _ _ _ _ _ Hc Ha).
Qed.

Lemma configured_token this :
  DiscogsAPI.isConfigured this = true ↔
  ∃ tok, DiscogsAPI.token this = Some tok ∧ tok ≠ "".
Proof.
  unfold DiscogsAPI.isConfigured, truthy. split.
  - destruct (DiscogsAPI.token this) as [tok|]; [|done].
    case_bool_decide; [done|]. eauto.
  - intros (tok & -> & Hne). by case_bool_decide.
Qed.

Lemma append_cancel_l (p a b : string) : p +:+ a = p +:+ b → a = b.
Proof. induction p as [|c p IH]; simpl; [done|]. intros [= H]. by apply IH. Qed.

(** X9.  A client built from the environment is configured exactly when
    the variable holds a non-empty string, and a client is configured
    after [setToken] exactly when the token given is not empty; [setToken]
    keeps the base URL. *)
Theorem configured_iff_token_not_empty :
  (∀ env, DiscogsAPI.isConfigured (DiscogsAPI.new env) = true
          ↔ ∃ s, env = Some s ∧ s ≠ "")
  ∧ (∀ this tok, DiscogsAPI.isConfigured (DiscogsAPI.setToken this tok) = true
                 ↔ tok ≠ "")
  ∧ (∀ this tok, DiscogsAPI.baseUrl (DiscogsAPI.setToken this tok)
                 = DiscogsAPI.baseUrl this).
Proof.
  split_and!.
  - intros env. rewrite configured_token. unfold DiscogsAPI.new; simpl.
    rewrite or_else_null. split.
    + intros (tok & Htok & Hne). destruct env as [s|]; [|done].
      case_bool_decide; [done|]. eauto.
    + intros (s & -> & Hne). exists s. by case_bool_decide.
  - intros this tok. rewrite configured_token. simpl. split.
    + by intros (? & [= <-] & ?).
    + eauto.
  - done.
Qed.

(** X10.  Every call of a configured client hands exactly one request to
    [fetch], whatever the network answers: a [GET] of the base URL
    followed by the endpoint of the call, with the content type, the user
    agent and the token in the [Authorization] header. *)
Theorem configured_call_sends_one_request
    (this : DiscogsAPI.t) (call : DiscogsAPI.Call) (net : Network) (tok : string) :
  DiscogsAPI.token this = Some tok →
  tok ≠ "" →
  ∃ request,
    issued (DiscogsAPI.perform this call net).2 = issued net ++ [request]
    ∧ method request = "GET"
    ∧ location (url request) = DiscogsAPI.baseUrl this +:+ (DiscogsAPI.target call).1
    ∧ searchParams (url request) = default [] (DiscogsAPI.target call).2
    ∧ headers request
      = [("Content-Type", "application/json");
         ("User-Agent", "VinylCollectionApp/1.0");
         ("Authorization", "Discogs token=" +:+ tok)].
Proof.
  intros Htok Hne.
  assert (DiscogsAPI.isConfigured this = true) as Hc
    by (apply configured_token; eauto).
  eexists. rewrite perform_request, request_sends by done.
  split_and!; [reflexivity..|].
  simpl. unfold DiscogsAPI.getAuthHeaders. rewrite Htok.
  unfold truthy. by case_bool_decide.
Qed.

Lemma configured_call_sends_one_request_witness :
  ∃ request,
    issued (DiscogsAPI.perform with_token
              (DiscogsAPI.SearchByBarcode "074640816314") offline).2 = [request]
    ∧ location (url request) = "https://api.discogs.com/database/search"
    ∧ searchParams (url request) = [("barcode", "074640816314"); ("type", "release")]
    ∧ headers request
      = [("Content-Type", "application/json");
         ("User-Agent", "VinylCollectionApp/1.0");
         ("Authorization", "Discogs token=s3cr3t")].
Proof.
  destruct (configured_call_sends_one_request with_token
              (DiscogsAPI.SearchByBarcode "074640816314") offline "s3cr3t"
              eq_refl) as (request & Hissued & _ & Hloc & Hparams & Hheaders);
    [done|].
  exists request. split_and!; done.
Defined.

(** X11.  When the response to a call of a configured client is [ok], the
    call returns the JSON value of the body as it is; if the body does not
    parse, it raises the error of the parse (the generic fetch error if
    what was thrown is not an [Error]). *)
Theorem ok_response_returns_body
    (this : DiscogsAPI.t) (call : DiscogsAPI.Call) (net : Network)
    (response : Response) :
  DiscogsAPI.isConfigured this = true →
  answer net (DiscogsAPI.outgoing this (DiscogsAPI.target call).1
                (DiscogsAPI.target call).2) = Returns response →
  ok response = true →
  (DiscogsAPI.perform this call net).1
  = match body_json response with
    | Returns value => Returns value
    | Throws t => Throws (if instanceof_Error t then t else FetchFailedError)
    end.
Proof.
  intros Hc Ha Hok. rewrite perform_request.
  by rewrite (request_ok _ _ _ _ _ Hc Ha Hok).
Qed.

Lemma ok_response_returns_body_witness :
  (DiscogsAPI.perform with_token
     (DiscogsAPI.Search "Kind of Blue" None None None)
     (answering (ok_with found_body))).1 = Returns found_body.
Proof.
  exact (ok_response_returns_body with_token
           (DiscogsAPI.Search "Kind of Blue" None None None)
           (answering (ok_with found_body)) (ok_with found_body)
           eq_refl eq_refl eq_refl).
Defined.

(** X12.  When the response to a call of a configured client is not [ok]
    and its body is the JSON value [null], the call raises the [TypeError]
    of reading [message] of [null]: the status code and the status text do
    not reach the caller. *)
Theorem null_error_body_loses_status
    (this : DiscogsAPI.t) (call : DiscogsAPI.Call) (net : Network)
    (response : Response) :
  DiscogsAPI.isConfigured this = true →
  answer net (DiscogsAPI.outgoing this (DiscogsAPI.target call).1
                (DiscogsAPI.target call).2) = Returns response →
  ok response = false →
  body_json response = Returns JNull →
  (DiscogsAPI.perform this call net).1
  = Throws (ErrorInstance TypeError "Cannot read property 'message' of null").
Proof.
  intros Hc Ha Hok Hbody. rewrite perform_request.
  by rewrite (request_not_ok _ _ _ _ _ Hc Ha Hok), Hbody.
Qed.

Lemma null_error_body_loses_status_witness :
  (DiscogsAPI.perform with_token (DiscogsAPI.GetMasterRelease 5460)
     (answering bad_gateway_null)).1
  = Throws (ErrorInstance TypeError "Cannot read property 'message' of null").
Proof.
  exact (null_error_body_loses_status with_token (DiscogsAPI.GetMasterRelease 5460)
           (answering bad_gateway_null) bad_gateway_null
           eq_refl eq_refl eq_refl eq_refl).
Defined.

(** X13.  The requests for the details of two releases go to one URL only
    if the release ids are equal, and a request for a release never goes
    to the URL of a request for a master release. *)
Theorem release_requests_distinct (this : DiscogsAPI.t) (a b : Z) :
  (location (url (DiscogsAPI.outgoing this
                    (DiscogsAPI.target (DiscogsAPI.GetRelease a)).1
                    (DiscogsAPI.target (DiscogsAPI.GetRelease a)).2))
   = location (url (DiscogsAPI.outgoing this
                      (DiscogsAPI.target (DiscogsAPI.GetRelease b)).1
                      (DiscogsAPI.target (DiscogsAPI.GetRelease b)).2))
   ↔ a = b)
  ∧ location (url (DiscogsAPI.outgoing this
                     (DiscogsAPI.target (DiscogsAPI.GetRelease a)).1
                     (DiscogsAPI.target (DiscogsAPI.GetRelease a)).2))
    ≠ location (url (DiscogsAPI.outgoing this
                       (DiscogsAPI.target (DiscogsAPI.GetMasterRelease b)).1
                       (DiscogsAPI.target (DiscogsAPI.GetMasterRelease b)).2)).
Proof.
  simpl. split.
  - split; [|by intros ->].
    intros Heq%append_cancel_l. simpl in Heq.
    injection Heq as Heq. by apply (inj pretty).
  - intros Heq%append_cancel_l. simpl in Heq. discriminate.
Qed.

(** * Further properties of the [App] component *)

Lemma loadRecords_run (s : App.State) :
  App.loadRecords s
  = (Returns tt,
     {| App.storage := App.storage s;
        App.records := collection (App.storage s);
        App.isLoadingRecords := false;
        App.isSaving := App.isSaving s;
        App.alerts := App.alerts s |}).
Proof.
  unfold App.loadRecords, App.try_finally, try_catch, await, App.on_storage,
    api.getRecords.
  simpl. by rewrite getStoredRecords_collection.
Qed.

(** X14.  [loadRecords] never raises and never shows an alert: it puts
    the collection as the store reads it on the screen, ends with
    [isLoadingRecords] off and leaves the device alone. *)
Theorem loadRecords_never_fails (s : App.State) :
  ∃ s',
    App.loadRecords s = (Returns tt, s')
    ∧ App.storage s' = App.storage s
    ∧ App.records s' = collection (App.storage s)
    ∧ App.isLoadingRecords s' = false
    ∧ App.isSaving s' = App.isSaving s
    ∧ App.alerts s' = App.alerts s.
Proof. eexists. split; [apply loadRecords_run|done]. Qed.

Lemma handleSelectRelease_rejected release now rnd s :
  setItem_rejects (App.storage s) = true →
  App.handleSelectRelease release now rnd s
  = (Returns tt,
     {| App.storage := App.storage s;
        App.records := App.records s;
        App.isLoadingRecords := App.isLoadingRecords s;
        App.isSaving := false;
        App.alerts := App.alerts s ++ [("Error", "Failed to add record to collection")] |}).
Proof.
  intros Hw.
  unfold App.handleSelectRelease, App.try_finally, try_catch, await, App.on_storage.
  simpl. by rewrite createRecord_rejected.
Qed.

(** X15.  [handleSelectRelease] never raises and always ends with
    [isSaving] off and one more alert.  When the device rejects the write,
    the alert says that adding failed, and the device and the records on
    the screen are as before; otherwise the alert reports success. *)
Theorem handleSelectRelease_always_settles
    (release : Release.t) (now : Z) (rnd : string) (s : App.State) :
  ∃ s',
    App.handleSelectRelease release now rnd s = (Returns tt, s')
    ∧ App.isSaving s' = false
    ∧ (setItem_rejects (App.storage s) = true →
       App.storage s' = App.storage s
       ∧ App.records s' = App.records s
       ∧ App.alerts s'
         = App.alerts s ++ [("Error", "Failed to add record to collection")])
    ∧ (setItem_rejects (App.storage s) = false →
       App.alerts s' = App.alerts s ++ [("Success", "Record added to collection!")]).
Proof.
  destruct (setItem_rejects (App.storage s)) eqn:Hw.
  - eexists. split; [by apply handleSelectRelease_rejected|]. by split_and!.
  - eexists. split; [by apply handleSelectRelease_accepted|]. by split_and!.
Qed.

Lemma handleDeleteRecord_accepted id0 s :
  setItem_rejects (App.storage s) = false →
  Form.handleDeleteRecord id0 s
  = (Returns tt,
     let st := written (App.storage s)
                 (filter (λ r, id r ≠ id0) (collection (App.storage s))) in
     {| App.storage := st;
        App.records := collection st;
        App.isLoadingRecords := false;
        App.isSaving := App.isSaving s;
        App.alerts := App.alerts s ++ [("Deleted", "Record removed from collection")] |}).
Proof.
  intros Hw.
  unfold Form.handleDeleteRecord, try_catch, await, App.on_storage.
  rewrite deleteRecord_accepted by done. simpl.
  by rewrite loadRecords_run.
Qed.

Lemma handleDeleteRecord_rejected id0 s :
  setItem_rejects (App.storage s) = true →
  Form.handleDeleteRecord id0 s
  = (Returns tt,
     {| App.storage := App.storage s;
        App.records := App.records s;
        App.isLoadingRecords := App.isLoadingRecords s;
        App.isSaving := App.isSaving s;
        App.alerts := App.alerts s ++ [("Error", "Failed to delete record")] |}).
Proof.
  intros Hw.
  unfold Form.handleDeleteRecord, try_catch, await, App.on_storage.
  by rewrite deleteRecord_rejected.
Qed.

(** X16.  [handleDeleteRecord] never raises and shows one alert.  On a
    device that accepts the write the alert says that the record was
    removed, whether or not a record had the id, and the screen shows the
    collection without the records of that id; on a device that rejects
    the write the alert says that deleting failed and nothing else
    changes. *)
Theorem handleDeleteRecord_always_settles (id0 : string) (s : App.State) :
  ∃ s',
    Form.handleDeleteRecord id0 s = (Returns tt, s')
    ∧ App.isSaving s' = App.isSaving s
    ∧ (setItem_rejects (App.storage s) = false →
       App.alerts s' = App.alerts s ++ [("Deleted", "Record removed from collection")]
       ∧ App.records s' = collection (App.storage s')
       ∧ collection (App.storage s')
         = filter (λ r, id r ≠ id0) (collection (App.storage s)))
    ∧ (setItem_rejects (App.storage s) = true →
       App.alerts s' = App.alerts s ++ [("Error", "Failed to delete record")]
       ∧ App.storage s' = App.storage s
       ∧ App.records s' = App.records s).
Proof.
  destruct (setItem_rejects (App.storage s)) eqn:Hw.
  - eexists. split; [by apply handleDeleteRecord_rejected|]. by split_and!.
  - eexists. split; [by apply handleDeleteRecord_accepted|].
    split_and!; [done| |done]. intros _. split_and!; [done..|].
    simpl. rewrite collection_written_any.
    destruct (getItem_rejects (App.storage s)) eqn:Hr; [|done].
    by rewrite collection_rejecting.
Qed.

Lemma newRecord_of_data (d : VinylData) (image : option string) (now : Z) (rnd : string) :
  data (api.newRecord (Form.saveInput d image) now rnd)
  = {| artistName := Some (default "" (artistName d));
       albumName := Some (default "" (albumName d));
       serialNumber := Some (default "" (serialNumber d));
       matrixRunout := Some (default "" (matrixRunout d));
       year := year d; country := country d; genre := genre d;
       style := style d; label := label d; format := format d;
       discogsId := discogsId d; discogsUrl := discogsUrl d |}.
Proof.
  destruct d as [a b c m y co g st l f di du].
  unfold api.newRecord, Form.saveInput, spread_data. cbn [data Input.fields
    Partial.artistName Partial.albumName Partial.serialNumber Partial.matrixRunout
    Partial.year Partial.country Partial.genre Partial.style Partial.label
    Partial.format Partial.discogsId Partial.discogsUrl Partial.get
    artistName albumName serialNumber matrixRunout year country genre style label
    format discogsId discogsUrl].
  rewrite !or_empty_default.
  by destruct y, co, g, st, l, f, di, du.
Qed.

(** X17.  Without extracted data [handleSaveRecord] shows the alert
    ['No Data'] and does nothing else: the store is not read or written,
    and the form and [isSaving] are as before. *)
Theorem handleSaveRecord_without_data (now : Z) (rnd : string) (s : Form.State) :
  Form.extractedData s = None →
  Form.handleSaveRecord now rnd s
  = (Returns tt,
     {| Form.base :=
          {| App.storage := App.storage (Form.base s);
             App.records := App.records (Form.base s);
             App.isLoadingRecords := App.isLoadingRecords (Form.base s);
             App.isSaving := App.isSaving (Form.base s);
             App.alerts := App.alerts (Form.base s)
               ++ [("No Data", "Please extract or enter vinyl data first")] |};
        Form.uploadedImage := Form.uploadedImage s;
        Form.extractedData := None;
        Form.isProcessing := Form.isProcessing s |}).
Proof.
  intros Hdata. unfold Form.handleSaveRecord. rewrite Hdata.
  unfold Form.on_base, App.alert. simpl. by rewrite Hdata.
Qed.

Lemma handleSaveRecord_without_data_witness :
  ∃ s',
    Form.handleSaveRecord 1700000000000 "k3x9q0z1a"
      {| Form.base := fresh_app; Form.uploadedImage := Some "file:///a.jpg";
         Form.extractedData := None; Form.isProcessing := false |}
    = (Returns tt, s')
    ∧ App.storage (Form.base s') = blank
    ∧ App.alerts (Form.base s')
      = [("No Data", "Please extract or enter vinyl data first")].
Proof.
  eexists. split; [|split].
  - apply (handleSaveRecord_without_data 1700000000000 "k3x9q0z1a"
             {| Form.base := fresh_app; Form.uploadedImage := Some "file:///a.jpg";
                Form.extractedData := None; Form.isProcessing := false |}).
    reflexivity.
  - reflexivity.
  - reflexivity.
Defined.

(** X18.  With extracted data [d], on a device that accepts the write,
    [handleSaveRecord] appends to the stored sequence a record whose data
    are those of [d], the empty string standing in for a text property
    that [d] holds as [undefined], so exactly [d] when it holds none so;
    its [imageUrl] is the uploaded image ([null] when there is none or it
    is empty).  The handler reports success, clears the form, reloads the
    records and ends with [isSaving] off. *)
Theorem handleSaveRecord_saves_the_data
    (now : Z) (rnd : string) (s : Form.State) (d : VinylData) :
  Form.extractedData s = Some d →
  setItem_rejects (App.storage (Form.base s)) = false →
  ∃ r s',
    Form.handleSaveRecord now rnd s = (Returns tt, s')
    ∧ data r
      = {| artistName := Some (default "" (artistName d));
           albumName := Some (default "" (albumName d));
           serialNumber := Some (default "" (serialNumber d));
           matrixRunout := Some (default "" (matrixRunout d));
           year := year d; country := country d; genre := genre d;
           style := style d; label := label d; format := format d;
           discogsId := discogsId d; discogsUrl := discogsUrl d |}
    ∧ (is_Some (artistName d) → is_Some (albumName d) →
       is_Some (serialNumber d) → is_Some (matrixRunout d) → data r = d)
    ∧ imageUrl r = or_else (Form.uploadedImage s) None
    ∧ createdAt r = now
    ∧ item (App.storage (Form.base s'))
      = Some (Json (collection (App.storage (Form.base s)) ++ [r]))
    ∧ App.records (Form.base s') = collection (App.storage (Form.base s'))
    ∧ App.alerts (Form.base s')
      = App.alerts (Form.base s) ++ [("Success", "Record saved to collection!")]
    ∧ App.isSaving (Form.base s') = false
    ∧ Form.uploadedImage s' = None
    ∧ Form.extractedData s' = None
    ∧ Form.isProcessing s' = false.
Proof.
  intros Hdata Hw.
  exists (api.newRecord (Form.saveInput d (Form.uploadedImage s)) now rnd).
  eexists. split.
  - unfold Form.handleSaveRecord. rewrite Hdata.
    unfold try_finally, try_catch, await, Form.on_base, App.on_storage. simpl.
    rewrite createRecord_accepted by done. simpl.
    rewrite loadRecords_run. simpl. reflexivity.
  - split_and!; try done.
    + apply newRecord_of_data.
    + intros [a Ha] [b Hb] [c Hc] [m Hm]. rewrite newRecord_of_data.
      destruct d. simpl in *. by subst.
    + unfold api.newRecord, Form.saveInput. cbn [imageUrl Input.imageUrl].
      unfold or_else. destruct (Form.uploadedImage s) as [u|]; [|done].
      by destruct (truthy u) eqn:Hu; rewrite ?Hu.
Qed.

Lemma handleSaveRecord_saves_the_data_witness :
  ∃ (r : VinylRecord) s',
    Form.handleSaveRecord 1700000000000 "k3x9q0z1a" form_with_data = (Returns tt, s')
    ∧ artistName r = Some "Miles Davis"
    ∧ year r = Some 1959
    ∧ imageUrl r = Some "file:///a.jpg"
    ∧ item (App.storage (Form.base s')) = Some (Json [r])
    ∧ Form.extractedData s' = None
    ∧ App.alerts (Form.base s') = [("Success", "Record saved to collection!")].
Proof.
  destruct (handleSaveRecord_saves_the_data 1700000000000 "k3x9q0z1a"
              form_with_data _ eq_refl eq_refl)
    as (r & s' & Hrun & _ & Hexact & Himage & _ & Hitem & _ & Halerts & _ & _ & Hcleared & _).
  pose proof (Hexact ltac:(by eexists) ltac:(by eexists)
                ltac:(by eexists) ltac:(by eexists)) as Hdata.
  exists r, s'. split_and!; [done|by rewrite Hdata..|done|done|done|done].
Defined.

(** X19.  Once an image was uploaded and the timer of
    [handleImageUpload] has fired, there are no extracted data, whatever
    had been entered before: [handleSaveRecord] then only shows the alert
    ['No Data'], and the device is as it was before the upload. *)
Theorem upload_then_save_refuses
    (imageUrl : string) (now : Z) (rnd : string) (s : Form.State) :
  ∃ s',
    (Form.handleImageUpload imageUrl ;;;
     Form.ocr_timer ;;;
     Form.handleSaveRecord now rnd) s = (Returns tt, s')
    ∧ App.storage (Form.base s') = App.storage (Form.base s)
    ∧ App.records (Form.base s') = App.records (Form.base s)
    ∧ Form.uploadedImage s' = Some imageUrl
    ∧ Form.extractedData s' = None
    ∧ Form.isProcessing s' = false
    ∧ App.alerts (Form.base s')
      = App.alerts (Form.base s)
        ++ [("OCR Note", "OCR processing requires cloud integration. For now, you can manually enter data or use Discogs search.");
            ("No Data", "Please extract or enter vinyl data first")].
Proof.
  eexists. split; [reflexivity|].
  simpl. split_and!; try done. by rewrite <- app_assoc.
Qed.

(** * The cover of a record in the collection *)

(** X20.  The card of a record returned by [createRecord] shows the image
    of the input's [imageUrl] when that is a non-empty string; otherwise
    it shows the placeholder, captioned with the input's album name, or
    with ['No Image'] when that is absent, [undefined] or empty.  The
    cover is 100 wide. *)
Theorem created_record_cover (x : Input.t) (now : Z) (rnd : string) :
  let placeholder :=
    CoverPlaceholder
      (match Partial.get (Partial.albumName x) with
       | Some name => if bool_decide (name = "") then "No Image" else name
       | None => "No Image"
       end) 100 in
  record_cover (api.newRecord x now rnd)
  = match Input.imageUrl x with
    | Some uri => if bool_decide (uri = "") then placeholder else CoverImage uri 100
    | None => placeholder
    end.
Proof.
  unfold record_cover, AlbumCover, api.newRecord.
  cbn [imageUrl data albumName artistName default].
  assert (∀ o : option string,
            (if truthy (or_empty o) then or_empty o else "No Image")
            = match o with
              | Some name => if bool_decide (name = "") then "No Image" else name
              | None => "No Image"
              end) as Hcaption.
  { intros [name|]; [|done]. unfold or_empty, truthy.
    destruct (decide (name = "")) as [->|Hname]; [done|].
    by rewrite !(bool_decide_false (name = "")) by done. }
  rewrite Hcaption. unfold or_else, truthy.
  destruct (Input.imageUrl x) as [uri|]; [|done].
  destruct (decide (uri = "")) as [->|Huri]; [done|].
  rewrite !(bool_decide_false (uri = "")) by done. cbn [negb].
  by rewrite bool_decide_false.
Qed.

(** * Properties of the search screen *)

(** The screen after a search went through, with the results and the
    alerts that its outcome gives. *)
Lemma handleSearch_run trim discogsAPI (w : SearchScreen.World) :
  SearchScreen.isConfigured (SearchScreen.screen w) = true →
  trim (SearchScreen.searchQuery (SearchScreen.screen w)) ≠ "" →
  ∃ found alerted,
    SearchScreen.handleSearch trim discogsAPI w
    = (Returns tt,
       {| SearchScreen.screen :=
            {| SearchScreen.searchQuery := SearchScreen.searchQuery (SearchScreen.screen w);
               SearchScreen.isSearching := false;
               SearchScreen.results := found;
               SearchScreen.isConfigured :=
                 SearchScreen.isConfigured (SearchScreen.screen w);
               SearchScreen.alerts := SearchScreen.alerts (SearchScreen.screen w) ++ alerted;
               SearchScreen.prompts := SearchScreen.prompts (SearchScreen.screen w) |};
          SearchScreen.network :=
            (DiscogsAPI.search discogsAPI
               (trim (SearchScreen.searchQuery (SearchScreen.screen w)))
               (Some SearchType.release) None None (SearchScreen.network w)).2 |})
    ∧ match (DiscogsAPI.search discogsAPI
               (trim (SearchScreen.searchQuery (SearchScreen.screen w)))
               (Some SearchType.release) None None (SearchScreen.network w)).1 with
      | Throws t =>
          found = JArray []
          ∧ alerted = [("Search Error", message_or "Failed to search Discogs" t)]
      | Returns JNull =>
          found = JArray []
          ∧ alerted = [("Search Error", "Cannot read property 'results' of null")]
      | Returns response =>
          match get_property "results" response with
          | Returns (Some value) =>
              if truthy_value (Some value)
              then found = value
                   ∧ alerted = (if length_is_zero value
                                then [("No Results", "No results found. Try a different search.")]
                                else [])
              else found = JArray []
                   ∧ alerted = [("No Results", "No results found. Try a different search.")]
          | _ =>
              found = JArray []
              ∧ alerted = [("No Results", "No results found. Try a different search.")]
          end
      end.
Proof.
  intros Hc Hq. unfold SearchScreen.handleSearch.
  rewrite Hc. cbn [negb].
  assert (truthy (trim (SearchScreen.searchQuery (SearchScreen.screen w))) = true) as ->.
  { unfold truthy. by rewrite bool_decide_false. }
  cbn [negb].
  unfold try_finally, try_catch, await, SearchScreen.on_network,
    SearchScreen.setIsSearching, SearchScreen.setResults, SearchScreen.alert,
    SearchScreen.on_screen, complete, resolve.
  cbn [SearchScreen.screen SearchScreen.network SearchScreen.searchQuery
       SearchScreen.isSearching SearchScreen.results SearchScreen.isConfigured
       SearchScreen.alerts SearchScreen.prompts].
  destruct (DiscogsAPI.search discogsAPI _ _ _ _ (SearchScreen.network w))
    as [[response|t] net'] eqn:Hsearch; cbn [fst snd].
  - destruct response as [|b|n|str|items|members]; cbn [get_property].
    + eexists _, _. split; [cbn; rewrite ?Hc; reflexivity|done].
    + eexists _, _. split; [cbn; rewrite ?Hc; reflexivity|done].
    + eexists _, _. split; [cbn; rewrite ?Hc; reflexivity|done].
    + eexists _, _. split; [cbn; rewrite ?Hc; reflexivity|done].
    + eexists _, _. split; [cbn; rewrite ?Hc; reflexivity|done].
    + destruct (member "results" members) as [value|] eqn:Hm.
      * destruct (truthy_value (Some value)) eqn:Ht; cbn [negb orb].
        -- destruct (length_is_zero value) eqn:Hz.
           ++ eexists _, _. split; [cbn; rewrite ?Hc; reflexivity|done].
           ++ eexists _, []. split; [cbn; rewrite ?Hc, app_nil_r; reflexivity|done].
        -- eexists _, _. split; [cbn; rewrite ?Hc; reflexivity|done].
      * eexists _, _. split; [cbn; rewrite ?Hc; reflexivity|done].
  - eexists _, _. split; [cbn; rewrite ?Hc; reflexivity|done].
Qed.

Lemma handleSearch_blocked trim discogsAPI (w : SearchScreen.World) :
  SearchScreen.isConfigured (SearchScreen.screen w) = false
  ∨ trim (SearchScreen.searchQuery (SearchScreen.screen w)) = "" →
  SearchScreen.handleSearch trim discogsAPI w
  = SearchScreen.alert
      (if SearchScreen.isConfigured (SearchScreen.screen w)
       then "Search Required" else "Configuration Required")
      (if SearchScreen.isConfigured (SearchScreen.screen w)
       then "Please enter a search query"
       else "Please configure your Discogs API credentials first") w.
Proof.
  intros Hguard. unfold SearchScreen.handleSearch.
  destruct (SearchScreen.isConfigured (SearchScreen.screen w)); [|done].
  destruct Hguard as [|Hblank]; [done|].
  by rewrite Hblank.
Qed.

(** X21.  When the screen was mounted with a client that is not
    configured, or when the query is empty once trimmed, [handleSearch]
    shows one alert and does nothing else: no request is handed to
    [fetch], and the query, the results and [isSearching] are as they
    were. *)
Theorem handleSearch_guards
    (trim : string → string) (discogsAPI : DiscogsAPI.t) (w : SearchScreen.World) :
  SearchScreen.isConfigured (SearchScreen.screen w) = false
  ∨ trim (SearchScreen.searchQuery (SearchScreen.screen w)) = "" →
  ∃ w' title message,
    SearchScreen.handleSearch trim discogsAPI w = (Returns tt, w')
    ∧ SearchScreen.network w' = SearchScreen.network w
    ∧ SearchScreen.alerts (SearchScreen.screen w')
      = SearchScreen.alerts (SearchScreen.screen w) ++ [(title, message)]
    ∧ (title = if SearchScreen.isConfigured (SearchScreen.screen w)
               then "Search Required" else "Configuration Required")
    ∧ SearchScreen.results (SearchScreen.screen w')
      = SearchScreen.results (SearchScreen.screen w)
    ∧ SearchScreen.isSearching (SearchScreen.screen w')
      = SearchScreen.isSearching (SearchScreen.screen w)
    ∧ SearchScreen.searchQuery (SearchScreen.screen w')
      = SearchScreen.searchQuery (SearchScreen.screen w).
Proof.
  intros Hguard. rewrite (handleSearch_blocked _ _ _ Hguard).
  eexists _, _, _. split; [reflexivity|]. by split_and!.
Qed.

Lemma handleSearch_guards_witness :
  ∃ w',
    SearchScreen.handleSearch (λ s, s) (DiscogsAPI.new None)
      {| SearchScreen.screen := SearchScreen.mount (DiscogsAPI.new None);
         SearchScreen.network := offline |}
    = (Returns tt, w')
    ∧ issued (SearchScreen.network w') = []
    ∧ SearchScreen.alerts (SearchScreen.screen w')
      = [("Configuration Required",
          "Please configure your Discogs API credentials first")].
Proof.
  destruct (handleSearch_guards (λ s, s) (DiscogsAPI.new None)
              {| SearchScreen.screen := SearchScreen.mount (DiscogsAPI.new None);
                 SearchScreen.network := offline |}
              (or_introl eq_refl))
    as (w' & title & message & Hrun & Hnet & Halerts & Htitle & _).
  exists w'. split; [exact Hrun|]. split; [by rewrite Hnet|].
  injection Hrun as <-. reflexivity.
Defined.

(** X22.  [handleSearch] never raises, shows at most one alert, and leaves
    the query and the confirmations alone; when the search went out, it
    ends with [isSearching] off, whatever the client returned or raised. *)
Theorem handleSearch_always_settles
    (trim : string → string) (discogsAPI : DiscogsAPI.t) (w : SearchScreen.World) :
  ∃ w',
    SearchScreen.handleSearch trim discogsAPI w = (Returns tt, w')
    ∧ SearchScreen.searchQuery (SearchScreen.screen w')
      = SearchScreen.searchQuery (SearchScreen.screen w)
    ∧ SearchScreen.prompts (SearchScreen.screen w')
      = SearchScreen.prompts (SearchScreen.screen w)
    ∧ (length (SearchScreen.alerts (SearchScreen.screen w'))
       ≤ length (SearchScreen.alerts (SearchScreen.screen w)) + 1)%nat
    ∧ (SearchScreen.isConfigured (SearchScreen.screen w) = true →
       trim (SearchScreen.searchQuery (SearchScreen.screen w)) ≠ "" →
       SearchScreen.isSearching (SearchScreen.screen w') = false).
Proof.
  destruct (SearchScreen.isConfigured (SearchScreen.screen w)) eqn:Hc;
    [destruct (decide (trim (SearchScreen.searchQuery (SearchScreen.screen w)) = ""))
       as [Hblank|Hquery]|].
  - rewrite handleSearch_blocked by (by right).
    eexists. split; [reflexivity|]. simpl. rewrite length_app. simpl.
    split_and!; [done..|lia|done].
  - destruct (handleSearch_run trim discogsAPI w Hc Hquery)
      as (found & alerted & Hrun & Hcases).
    eexists. split; [exact Hrun|]. simpl. split_and!; [done..| |done].
    rewrite length_app.
    assert (length alerted ≤ 1)%nat; [|lia].
    destruct ((DiscogsAPI.search discogsAPI
                 (trim (SearchScreen.searchQuery (SearchScreen.screen w)))
                 (Some SearchType.release) None None (SearchScreen.network w)).1)
      as [response|t].
    + destruct response as [|b|n|str|items|members]; cbn [get_property] in Hcases;
        try (destruct Hcases as [_ ->]; simpl; lia).
      destruct (member "results" members) as [value|].
      * destruct (truthy_value (Some value));
          [destruct (length_is_zero value)|];
          destruct Hcases as [_ ->]; simpl; lia.
      * destruct Hcases as [_ ->]; simpl; lia.
    + destruct Hcases as [_ ->]. simpl. lia.
  - rewrite handleSearch_blocked by (by left). rewrite Hc.
    eexists. split; [reflexivity|]. simpl. rewrite length_app. simpl.
    split_and!; [done..|lia|done].
Qed.

(** X23.  When the search went out and the client returned an object whose
    [results] member is an array, the screen holds that array as its
    results, and the alert ['No Results'] is shown exactly when the array
    is empty. *)
Theorem handleSearch_shows_results
    (trim : string → string) (discogsAPI : DiscogsAPI.t) (w : SearchScreen.World)
    (members : list (string * json)) (items : list json) :
  SearchScreen.isConfigured (SearchScreen.screen w) = true →
  trim (SearchScreen.searchQuery (SearchScreen.screen w)) ≠ "" →
  (DiscogsAPI.search discogsAPI
     (trim (SearchScreen.searchQuery (SearchScreen.screen w)))
     (Some SearchType.release) None None (SearchScreen.network w)).1
  = Returns (JObject members) →
  member "results" members = Some (JArray items) →
  ∃ w',
    SearchScreen.handleSearch trim discogsAPI w = (Returns tt, w')
    ∧ SearchScreen.results (SearchScreen.screen w') = JArray items
    ∧ SearchScreen.isSearching (SearchScreen.screen w') = false
    ∧ SearchScreen.alerts (SearchScreen.screen w')
      = SearchScreen.alerts (SearchScreen.screen w)
        ++ (if bool_decide (items = [])
            then [("No Results", "No results found. Try a different search.")]
            else []).
Proof.
  intros Hc Hquery Hsearch Hresults.
  destruct (handleSearch_run trim discogsAPI w Hc Hquery)
    as (found & alerted & Hrun & Hcases).
  rewrite Hsearch in Hcases. simpl in Hcases. rewrite Hresults in Hcases.
  simpl in Hcases. destruct Hcases as [-> ->].
  eexists. split; [exact Hrun|]. by split_and!.
Qed.

Lemma handleSearch_shows_results_witness :
  ∃ w' items,
    SearchScreen.handleSearch (λ s, s) with_token
      {| SearchScreen.screen :=
           {| SearchScreen.searchQuery := "Kind of Blue";
              SearchScreen.isSearching := false;
              SearchScreen.results := JArray [];
              SearchScreen.isConfigured := true;
              SearchScreen.alerts := []; SearchScreen.prompts := [] |};
         SearchScreen.network := answering (ok_with found_body) |}
    = (Returns tt, w')
    ∧ SearchScreen.results (SearchScreen.screen w') = JArray items
    ∧ length items = 1%nat
    ∧ SearchScreen.alerts (SearchScreen.screen w') = [].
Proof.
  destruct (handleSearch_shows_results (λ s, s) with_token
              {| SearchScreen.screen :=
                   {| SearchScreen.searchQuery := "Kind of Blue";
                      SearchScreen.isSearching := false;
                      SearchScreen.results := JArray [];
                      SearchScreen.isConfigured := true;
                      SearchScreen.alerts := []; SearchScreen.prompts := [] |};
                 SearchScreen.network := answering (ok_with found_body) |}
              [("results",
                JArray [JObject [("id", JNumber 249504);
                                 ("title", JString "Miles Davis - Kind of Blue")]])]
              [JObject [("id", JNumber 249504);
                        ("title", JString "Miles Davis - Kind of Blue")]]
              eq_refl ltac:(discriminate) eq_refl eq_refl)
    as (w' & Hrun & Hresults & _ & Halerts).
  eexists w', _. split_and!; [exact Hrun|exact Hresults|reflexivity|exact Halerts].
Defined.

(** X24.  When the search went out and the client raised, the alert
    ['Search Error'] shows the message of the error, or a fixed text when
    what was raised is not an [Error]; the results are empty and
    [isSearching] is off. *)
Theorem handleSearch_shows_error
    (trim : string → string) (discogsAPI : DiscogsAPI.t) (w : SearchScreen.World)
    (t : Thrown) :
  SearchScreen.isConfigured (SearchScreen.screen w) = true →
  trim (SearchScreen.searchQuery (SearchScreen.screen w)) ≠ "" →
  (DiscogsAPI.search discogsAPI
     (trim (SearchScreen.searchQuery (SearchScreen.screen w)))
     (Some SearchType.release) None None (SearchScreen.network w)).1
  = Throws t →
  ∃ w',
    SearchScreen.handleSearch trim discogsAPI w = (Returns tt, w')
    ∧ SearchScreen.results (SearchScreen.screen w') = JArray []
    ∧ SearchScreen.isSearching (SearchScreen.screen w') = false
    ∧ SearchScreen.alerts (SearchScreen.screen w')
      = SearchScreen.alerts (SearchScreen.screen w)
        ++ [("Search Error",
             match t with
             | ErrorInstance _ message => message
             | NonError _ => "Failed to search Discogs"
             end)].
Proof.
  intros Hc Hquery Hsearch.
  destruct (handleSearch_run trim discogsAPI w Hc Hquery)
    as (found & alerted & Hrun & Hcases).
  rewrite Hsearch in Hcases. destruct Hcases as [-> ->].
  eexists. split; [exact Hrun|]. by split_and!.
Qed.

Lemma handleSearch_shows_error_witness :
  ∃ w',
    SearchScreen.handleSearch (λ s, s) with_token
      {| SearchScreen.screen :=
           {| SearchScreen.searchQuery := "Kind of Blue";
              SearchScreen.isSearching := false;
              SearchScreen.results := JArray [];
              SearchScreen.isConfigured := true;
              SearchScreen.alerts := []; SearchScreen.prompts := [] |};
         SearchScreen.network := all_not_found |}
    = (Returns tt, w')
    ∧ SearchScreen.alerts (SearchScreen.screen w')
      = [("Search Error", "Discogs API error: 404 Not Found. Release not found.")].
Proof.
  destruct (handleSearch_shows_error (λ s, s) with_token
              {| SearchScreen.screen :=
                   {| SearchScreen.searchQuery := "Kind of Blue";
                      SearchScreen.isSearching := false;
                      SearchScreen.results := JArray [];
                      SearchScreen.isConfigured := true;
                      SearchScreen.alerts := []; SearchScreen.prompts := [] |};
                 SearchScreen.network := all_not_found |}
              (ErrorInstance Error
                 "Discogs API error: 404 Not Found. Release not found.")
              eq_refl ltac:(discriminate) eq_refl)
    as (w' & Hrun & _ & _ & Halerts).
  exists w'. split; [exact Hrun|exact Halerts].
Defined.

(** X25.  [handleSelectResult] never raises and asks the client for the
    release once.  When the client raises, or returns [null], it shows the
    alert ['Failed to fetch release details'] and no confirmation; when
    the client returns an object, it shows no alert and one confirmation,
    which quotes the [title] member of the object and holds the object for
    the [Add] button. *)
Theorem handleSelectResult_always_settles
    (discogsAPI : DiscogsAPI.t) (result_id : Z) (w : SearchScreen.World) :
  ∃ w',
    SearchScreen.handleSelectResult discogsAPI result_id w = (Returns tt, w')
    ∧ SearchScreen.network w'
      = (DiscogsAPI.getRelease discogsAPI result_id (SearchScreen.network w)).2
    ∧ SearchScreen.results (SearchScreen.screen w')
      = SearchScreen.results (SearchScreen.screen w)
    ∧ match (DiscogsAPI.getRelease discogsAPI result_id (SearchScreen.network w)).1 with
      | Throws _ | Returns JNull =>
          SearchScreen.alerts (SearchScreen.screen w')
          = SearchScreen.alerts (SearchScreen.screen w)
            ++ [("Error", "Failed to fetch release details")]
          ∧ SearchScreen.prompts (SearchScreen.screen w')
            = SearchScreen.prompts (SearchScreen.screen w)
      | Returns (JObject members) =>
          SearchScreen.alerts (SearchScreen.screen w')
          = SearchScreen.alerts (SearchScreen.screen w)
          ∧ SearchScreen.prompts (SearchScreen.screen w')
            = SearchScreen.prompts (SearchScreen.screen w)
              ++ [("Add " +:+ double_quote
                     +:+ property_text (member "title" members)
                     +:+ double_quote +:+ " to your collection?",
                   JObject members)]
      | Returns release =>
          SearchScreen.alerts (SearchScreen.screen w')
          = SearchScreen.alerts (SearchScreen.screen w)
          ∧ SearchScreen.prompts (SearchScreen.screen w')
            = SearchScreen.prompts (SearchScreen.screen w)
              ++ [("Add " +:+ double_quote +:+ "undefined" +:+ double_quote
                     +:+ " to your collection?",
                   release)]
      end.
Proof.
  unfold SearchScreen.handleSelectResult, try_catch, await,
    SearchScreen.on_network, complete.
  destruct (DiscogsAPI.getRelease discogsAPI result_id (SearchScreen.network w))
    as [[release|t] net'].
  - destruct release; eexists; (split; [reflexivity|]); by split_and!.
  - eexists. split; [reflexivity|]. by split_and!.
Qed.
